(** * StockFlow inventory tracker: the store, its derived views and its
      persistence, embedded from the two variants of the application.

    - [Full] follows the manual CRUD variant (add / edit / delete form,
      quantity buttons, try/catch around storage).
    - [Scan] follows the scan-only variant in [www/script.js] (barcode
      scan adds or increments, quantity buttons, delete).

    JavaScript values are embedded as the type [value]; an object is a
    finite map from property names to values.  Numbers are the integers
    (the quantities of the store); strings are sequences of code units
    below 256.  A run that leaves this fragment ends in [Beyond].

    A number of the language holds every integer up to 2^53 in magnitude
    and rounds beyond; [Number_add] is the sum as the language rounds
    it, and the quantity buttons and the scans add through it.  The
    total of the dashboard is written as a sum of integers, which the
    code's sum is as long as it stays within 2^53; the statements that
    depend on it say so.

    The state is the collection [inventory] and the storage slot.  The
    readings of the clock and of the random generator are arguments of
    the operations that consume them.  The operations are embedded with
    the write to the storage accepted and without the rendering that
    follows it (the table, the statistics, the toasts), which reads the
    state and does not change it; [run_write] and the click handlers of
    the delete dialogs add the refused write and the rendering that
    throws. *)

From Stdlib Require Import ZArith NArith Ascii String Decimal DecimalString
  DecimalN DecimalZ.
From stdpp Require Import base option list strings gmap sorting.

Set Warnings "-register-all".

Local Open Scope Z_scope.

(** ** Outcomes of a JavaScript computation *)

Inductive exn := SyntaxError | TypeError.

(** [Ok a]: normal completion with [a]; [Throw e]: an exception reaches
    the caller; [Beyond]: the run needs a value outside the embedded
    fragment (a fraction, a code unit above 255, an implicit coercion). *)
Inductive outcome (A : Type) :=
| Ok (a : A)
| Throw (e : exn)
| Beyond.
Arguments Ok {A} a.
Arguments Throw {A} e.
Arguments Beyond {A}.

#[global] Instance outcome_ret : MRet outcome := fun A a => Ok a.

#[global] Instance outcome_bind : MBind outcome := fun A B k o =>
  match o with
  | Ok a => k a
  | Throw e => Throw e
  | Beyond => Beyond
  end.

#[global] Instance outcome_fmap : FMap outcome := fun A B f o =>
  match o with
  | Ok a => Ok (f a)
  | Throw e => Throw e
  | Beyond => Beyond
  end.

(** [try { c } catch (error) { h }] *)
Definition try_catch {A} (c : outcome A) (h : exn -> outcome A) : outcome A :=
  match c with
  | Throw e => h e
  | _ => c
  end.

(** ** Values *)

Inductive value :=
| VNull
| VBool (b : bool)
| VNum (z : Z)
| VStr (s : string)
| VArr (l : list value)
| VObj (m : gmap string value).

(** A property read [o.k] on an object; [None] is [undefined]. *)
Definition prop (k : string) (o : gmap string value) : option value := o !! k.

(** [o.k === s] for a string [s]: strict equality never coerces. *)
Definition prop_is (k : string) (s : string) (o : gmap string value) : bool :=
  match prop k o with
  | Some (VStr s') => String.eqb s' s
  | _ => false
  end.

(** JavaScript truthiness of a value (objects and arrays are truthy). *)
Definition truthy (v : value) : bool :=
  match v with
  | VNull => false
  | VBool b => b
  | VNum z => negb (z =? 0)
  | VStr s => negb (String.eqb s EmptyString)
  | VArr _ | VObj _ => true
  end.

(** Size of a value, used as the measure of nested inductions. *)
Fixpoint vsize (v : value) : nat :=
  match v with
  | VArr l => S (foldr (fun x acc => (vsize x + acc)%nat) 0%nat l)
  | VObj m => S (map_fold (fun _ x acc => (vsize x + acc)%nat) 0%nat m)
  | _ => 1%nat
  end.

(** ** Strings *)

Definition code (c : ascii) : N := N_of_ascii c.

Definition ch (n : N) : ascii := ascii_of_N n.

Definition dquote : ascii := ch 34.
Definition backslash : ascii := ch 92.

(** [String.prototype.toLowerCase] on code units below 256: A-Z and the
    Latin-1 capitals (C0-D6, D8-DE) move up by 32. *)
Definition lower_unit (c : ascii) : ascii :=
  let n := code c in
  if ((65 <=? n) && (n <=? 90) || (192 <=? n) && (n <=? 214)
      || (216 <=? n) && (n <=? 222))%N
  then ch (n + 32) else c.

Fixpoint toLowerCase (s : string) : string :=
  match s with
  | EmptyString => EmptyString
  | String c s' => String (lower_unit c) (toLowerCase s')
  end.

(** [s.includes(q)]: [q] occurs in [s] as a contiguous run. *)
Fixpoint includes (q s : string) : bool :=
  String.prefix q s ||
  match s with
  | EmptyString => false
  | String _ s' => includes q s'
  end.

(** ** Numbers *)

(** [z] is within 2^53 in magnitude, the range in which a number holds
    every integer. *)
Definition within_2_53 (z : Z) : Prop := Z.abs z <= 2 ^ 53.

(** The number nearest to the integer [z]: [z] itself up to 2^53 in
    magnitude, and beyond it the nearest integer with a mantissa of 53
    bits, a tie going to the even mantissa.  (Magnitudes from 2^1024 on,
    where the language has [Infinity], are rounded the same way.) *)
Definition round53 (z : Z) : Z :=
  if Z.abs z <=? 2 ^ 53 then z
  else
    let ulp := 2 ^ (Z.log2 (Z.abs z) - 52) in
    let m := Z.abs z / ulp in
    let r := Z.abs z mod ulp in
    let m' := if 2 * r <? ulp then m
              else if ulp <? 2 * r then m + 1
              else if Z.even m then m else m + 1 in
    Z.sgn z * (m' * ulp).

(** [a + b] on two numbers that hold integers: the sum, rounded. *)
Definition Number_add (a b : Z) : Z := round53 (a + b).

(** Decimal text of an integer, as a template literal or
    [JSON.stringify] prints it (below 10^21 in magnitude). *)
Definition show_N (n : N) : string := NilEmpty.string_of_uint (N.to_uint n).

Definition show_Z (z : Z) : string :=
  match z with
  | Zneg p => String (ch 45) (show_N (Npos p))
  | _ => show_N (Z.to_N z)
  end.

(** ** JSON text

    [JSON.stringify] and [JSON.parse] are the platform's; they are
    embedded here for the fragment above.  [JSON.parse] runs a lexer over
    the text and a recursive-descent parser over the tokens. *)

Module JSON.

Inductive token :=
| TLBrace | TRBrace | TLBracket | TRBracket | TColon | TComma
| TNull | TTrue | TFalse
| TNum (z : Z)
| TStr (s : string).

(** *** Serialisation *)

Definition hex_digit (n : N) : ascii :=
  if (n <? 10)%N then ch (48 + n) else ch (87 + n).

(** QuoteJSONString, one code unit: the quote, the backslash and the
    control characters are escaped. *)
Definition quote_unit (c : ascii) : string :=
  let n := code c in
  if (n =? 34)%N then String backslash (String dquote EmptyString)
  else if (n =? 92)%N then String backslash (String backslash EmptyString)
  else if (n =? 8)%N then String backslash "b"
  else if (n =? 12)%N then String backslash "f"
  else if (n =? 10)%N then String backslash "n"
  else if (n =? 13)%N then String backslash "r"
  else if (n =? 9)%N then String backslash "t"
  else if (n <? 32)%N then
    String backslash
      ("u00" +:+ String (hex_digit (n / 16))
                   (String (hex_digit (n mod 16)) EmptyString))
  else String c EmptyString.

Fixpoint quote_body (s : string) : string :=
  match s with
  | EmptyString => EmptyString
  | String c s' => quote_unit c +:+ quote_body s'
  end.

Definition quote (s : string) : string :=
  String dquote (quote_body s +:+ String dquote EmptyString).

(** [xs.join(",")]: the first element, then every other one after a
    comma. *)
Definition rest_comma (xs : list string) : string :=
  foldr (fun y acc => "," +:+ y +:+ acc) EmptyString xs.

Definition join_comma (xs : list string) : string :=
  match xs with
  | [] => EmptyString
  | x :: r => x +:+ rest_comma r
  end.

(** [JSON.stringify(v)], without indentation.  The members of an object
    are written in the order of the map's enumeration. *)
Fixpoint stringify (v : value) : string :=
  match v with
  | VNull => "null"
  | VBool true => "true"
  | VBool false => "false"
  | VNum z => show_Z z
  | VStr s => quote s
  | VArr l => "[" +:+ join_comma (map stringify l) +:+ "]"
  | VObj m =>
      "{" +:+
      join_comma
        (map_fold (fun k x acc => (quote k +:+ ":" +:+ stringify x) :: acc)
                  [] m)
      +:+ "}"
  end.

(** *** Lexer *)

Definition is_ws (n : N) : bool :=
  ((n =? 32) || (n =? 9) || (n =? 10) || (n =? 13))%N.

Definition digit_of (c : ascii) : option (uint -> uint) :=
  match code c with
  | 48%N => Some D0 | 49%N => Some D1 | 50%N => Some D2 | 51%N => Some D3
  | 52%N => Some D4 | 53%N => Some D5 | 54%N => Some D6 | 55%N => Some D7
  | 56%N => Some D8 | 57%N => Some D9
  | _ => None
  end.

Definition hex_val (c : ascii) : option N :=
  let n := code c in
  if ((48 <=? n) && (n <=? 57))%N then Some (n - 48)%N
  else if ((97 <=? n) && (n <=? 102))%N then Some (n - 87)%N
  else if ((65 <=? n) && (n <=? 70))%N then Some (n - 55)%N
  else None.

Definition hex4 (a b c d : ascii) : option N :=
  match hex_val a, hex_val b, hex_val c, hex_val d with
  | Some x, Some y, Some z, Some w => Some (((x * 16 + y) * 16 + z) * 16 + w)%N
  | _, _, _, _ => None
  end.

Definition unescape (e : ascii) : option ascii :=
  match code e with
  | 34%N => Some dquote
  | 92%N => Some backslash
  | 47%N => Some (ch 47)
  | 98%N => Some (ch 8)
  | 102%N => Some (ch 12)
  | 110%N => Some (ch 10)
  | 114%N => Some (ch 13)
  | 116%N => Some (ch 9)
  | _ => None
  end.

Definition push (c : ascii) (p : string * string) : string * string :=
  (String c p.1, p.2).

(** The body of a string literal, after its opening quote: the decoded
    string and the text after the closing quote. *)
Fixpoint lex_string (s : string) : outcome (string * string) :=
  match s with
  | EmptyString => Throw SyntaxError
  | String c s' =>
    if (code c =? 34)%N then Ok (EmptyString, s')
    else if (code c =? 92)%N then
      match s' with
      | EmptyString => Throw SyntaxError
      | String e s'' =>
        if (code e =? 117)%N then
          match s'' with
          | String h1 (String h2 (String h3 (String h4 r))) =>
            match hex4 h1 h2 h3 h4 with
            | None => Throw SyntaxError
            | Some n =>
              if (n <? 256)%N then push (ch n) <$> lex_string r else Beyond
            end
          | _ => Throw SyntaxError
          end
        else
          match unescape e with
          | None => Throw SyntaxError
          | Some c' => push c' <$> lex_string s''
          end
      end
    else if (code c <? 32)%N then Throw SyntaxError
    else push c <$> lex_string s'
  end.

(** The longest run of decimal digits at the head of the text. *)
Fixpoint lex_digits (s : string) : uint * string :=
  match s with
  | EmptyString => (Nil, s)
  | String c s' =>
    match digit_of c with
    | Some d => let '(u, r) := lex_digits s' in (d u, r)
    | None => (Nil, s)
    end
  end.

Definition starts_fraction (s : string) : bool :=
  match s with
  | String c _ => ((code c =? 46) || (code c =? 101) || (code c =? 69))%N
  | EmptyString => false
  end.

(** A number without its sign: no leading zero; a fraction or an
    exponent is not an integer. *)
Definition lex_number (s : string) : outcome (N * string) :=
  let '(u, r) := lex_digits s in
  match u with
  | Nil => Throw SyntaxError
  | D0 Nil => if starts_fraction r then Beyond else Ok (0%N, r)
  | D0 _ => Throw SyntaxError
  | _ => if starts_fraction r then Beyond else Ok (N.of_uint u, r)
  end.

Fixpoint strip (p s : string) : option string :=
  match p with
  | EmptyString => Some s
  | String a p' =>
    match s with
    | String b s' => if Ascii.eqb a b then strip p' s' else None
    | EmptyString => None
    end
  end.

Definition punct (n : N) : option token :=
  match n with
  | 123%N => Some TLBrace | 125%N => Some TRBrace
  | 91%N => Some TLBracket | 93%N => Some TRBracket
  | 58%N => Some TColon | 44%N => Some TComma
  | _ => None
  end.

Definition keyword (s : string) : option (token * string) :=
  match strip "null" s with
  | Some r => Some (TNull, r)
  | None =>
    match strip "true" s with
    | Some r => Some (TTrue, r)
    | None =>
      match strip "false" s with
      | Some r => Some (TFalse, r)
      | None => None
      end
    end
  end.

(** One token per unit of fuel; the text never holds more tokens than
    code units. *)
Fixpoint lex (fuel : nat) (s : string) : outcome (list token) :=
  match s with
  | EmptyString => Ok []
  | String c r =>
    match fuel with
    | O => Beyond
    | S fuel =>
      let n := code c in
      if is_ws n then lex fuel r
      else match punct n with
      | Some t => (t ::.) <$> lex fuel r
      | None =>
        if (n =? 34)%N then
          '(str, r') ← lex_string r; (TStr str ::.) <$> lex fuel r'
        else if (n =? 45)%N then
          '(z, r') ← lex_number r; (TNum (- Z.of_N z) ::.) <$> lex fuel r'
        else match digit_of c with
        | Some _ =>
          '(z, r') ← lex_number s; (TNum (Z.of_N z) ::.) <$> lex fuel r'
        | None =>
          match keyword s with
          | Some (t, r') => (t ::.) <$> lex fuel r'
          | None => Throw SyntaxError
          end
        end
      end
    end
  end.

(** *** Parser *)

Fixpoint parse_value (fuel : nat) (ts : list token)
  : outcome (value * list token) :=
  match fuel with
  | O => Beyond
  | S fuel =>
    match ts with
    | TNull :: r => Ok (VNull, r)
    | TTrue :: r => Ok (VBool true, r)
    | TFalse :: r => Ok (VBool false, r)
    | TNum z :: r => Ok (VNum z, r)
    | TStr s :: r => Ok (VStr s, r)
    | TLBracket :: TRBracket :: r => Ok (VArr [], r)
    | TLBracket :: r =>
      '(v, r1) ← parse_value fuel r; parse_elements fuel [v] r1
    | TLBrace :: TRBrace :: r => Ok (VObj ∅, r)
    | TLBrace :: TStr k :: TColon :: r =>
      '(v, r1) ← parse_value fuel r; parse_members fuel (<[k:=v]> ∅) r1
    | _ => Throw SyntaxError
    end
  end
with parse_elements (fuel : nat) (acc : list value) (ts : list token)
  : outcome (value * list token) :=
  match fuel with
  | O => Beyond
  | S fuel =>
    match ts with
    | TRBracket :: r => Ok (VArr (reverse acc), r)
    | TComma :: r =>
      '(v, r1) ← parse_value fuel r; parse_elements fuel (v :: acc) r1
    | _ => Throw SyntaxError
    end
  end
with parse_members (fuel : nat) (acc : gmap string value) (ts : list token)
  : outcome (value * list token) :=
  match fuel with
  | O => Beyond
  | S fuel =>
    match ts with
    | TRBrace :: r => Ok (VObj acc, r)
    | TComma :: TStr k :: TColon :: r =>
      '(v, r1) ← parse_value fuel r; parse_members fuel (<[k:=v]> acc) r1
    | _ => Throw SyntaxError
    end
  end.

(** [JSON.parse(text)]: one value, then the end of the text. *)
Definition parse (text : string) : outcome value :=
  ts ← lex (String.length text) text;
  '(v, r) ← parse_value (S (length ts)) ts;
  match r with
  | [] => Ok v
  | _ => Throw SyntaxError
  end.

(** *** The token sequence of a value

    What the lexer has to find in [stringify v], and the parser has to
    read back. *)

Definition rest_toks (ls : list (list token)) : list token :=
  foldr (fun y acc => TComma :: y ++ acc) [] ls.

Definition sep_by (ls : list (list token)) : list token :=
  match ls with
  | [] => []
  | x :: r => x ++ rest_toks r
  end.

Fixpoint tokens (v : value) : list token :=
  match v with
  | VNull => [TNull]
  | VBool true => [TTrue]
  | VBool false => [TFalse]
  | VNum z => [TNum z]
  | VStr s => [TStr s]
  | VArr l => TLBracket :: sep_by (map tokens l) ++ [TRBracket]
  | VObj m =>
      TLBrace ::
      sep_by (map_fold (fun k x acc => (TStr k :: TColon :: tokens x) :: acc)
                       [] m)
      ++ [TRBrace]
  end.

Definition member_tokens (kv : string * value) : list token :=
  TStr kv.1 :: TColon :: tokens kv.2.

Definition put (acc : gmap string value) (kv : string * value)
  : gmap string value :=
  <[kv.1 := kv.2]> acc.

Definition starts_value (t : token) : bool :=
  match t with
  | TRBrace | TRBracket | TColon | TComma => false
  | _ => true
  end.

(** The text after a value in serialised output: the end, a comma or a
    closing bracket. *)
Definition follow (s : string) : Prop :=
  match s with
  | EmptyString => True
  | String c _ => code c = 44%N \/ code c = 93%N \/ code c = 125%N
  end.

Definition no_digit (s : string) : Prop :=
  match s with
  | EmptyString => True
  | String c _ => digit_of c = None
  end.

(** [lex] reads [ts] from [s] with any fuel from [n] on. *)
Definition lexfrom (n : nat) (s : string) (ts : list token) : Prop :=
  forall m, (n <= m)%nat -> lex m s = Ok ts.

(** [text] is lexed to [toks], whatever follows it. *)
Definition lexes (text : string) (toks : list token) : Prop :=
  (length toks <= String.length text)%nat /\
  forall s ts n, follow s -> lexfrom n s ts ->
    lexfrom (length toks + n) (text +:+ s) (toks ++ ts).

Definition parses (v : value) : Prop :=
  forall fuel rest, (length (tokens v) < fuel)%nat ->
    parse_value fuel (tokens v ++ rest) = Ok (v, rest).

End JSON.

(** ** Shared JavaScript library functions *)

Abbreviation item := (gmap string value).

(** [l.findIndex(f)] with [l[index]], and [l.find(f)]: the first element
    that satisfies [f]. *)
Definition find_first (f : item -> bool) (l : list item) : option (nat * item) :=
  list_find (fun i => f i = true) l.

Definition find (f : item -> bool) (l : list item) : option item :=
  snd <$> find_first f l.

(** [l.filter(f)] where [f] may throw. *)
Fixpoint filter_o {A} (f : A -> outcome bool) (l : list A) : outcome (list A) :=
  match l with
  | [] => Ok []
  | x :: r =>
    b ← f x;
    rest ← filter_o f r;
    Ok (if b : bool then x :: rest else rest)
  end.

(** [[...new Set(l)]]: the elements of [l] in order of first occurrence. *)
Definition Set_add (acc : list string) (x : string) : list string :=
  if bool_decide (x ∈ acc) then acc else acc ++ [x].

Definition Set_values (l : list string) : list string := foldl Set_add [] l.

(** [l.sort()] without comparator on strings: ascending, code unit by
    code unit. *)
Definition sort (l : list string) : list string := merge_sort String.le l.

(** [i.category] for every item; a category that is not a string leaves
    the fragment ([Set] and [sort] would coerce or compare by identity). *)
Fixpoint categories_of (l : list item) : outcome (list string) :=
  match l with
  | [] => Ok []
  | i :: r =>
    match prop "category" i with
    | Some (VStr c) => (c ::.) <$> categories_of r
    | _ => Beyond
    end
  end.

(** The array [inventory] as a value. *)
Definition array_of (inv : list item) : value := VArr (VObj <$> inv).

(** ** Vocabulary of the statements *)

(** The [id] of every item, in order. *)
Definition ids (inv : list item) : list (option value) := prop "id" <$> inv.

(** The item has a quantity, and it is an integer that is not negative. *)
Definition nonneg_quantity (i : item) : bool :=
  match prop "quantity" i with
  | Some (VNum q) => 0 <=? q
  | _ => false
  end.

Definition all_nonneg (inv : list item) : Prop :=
  Forall (fun i => nonneg_quantity i = true) inv.

(** The id of the item is a string, and none of the strings [future]. *)
Definition id_apart (future : list string) (i : item) : Prop :=
  exists g, prop "id" i = Some (VStr g) /\ g ∉ future.

(** The ids are pairwise distinct, and apart from [future]. *)
Definition ids_ok (future : list string) (inv : list item) : Prop :=
  NoDup (ids inv) /\ Forall (id_apart future) inv.

(** The code unit [c] does not occur in [s]. *)
Fixpoint free_of (c : ascii) (s : string) : Prop :=
  match s with
  | EmptyString => True
  | String a s' => a <> c /\ free_of c s'
  end.

(** No item has the string [s] as its property [k]. *)
Definition none_has (k s : string) (inv : list item) : Prop :=
  Forall (fun i => prop_is k s i = false) inv.

(** [i], at position [index], is the first item that has the string [s]
    as its property [k]. *)
Definition first_with (k s : string) (inv : list item) (index : nat) (i : item)
  : Prop :=
  inv !! index = Some i /\ prop_is k s i = true /\
  forall j y, inv !! j = Some y -> (j < index)%nat -> prop_is k s y = false.

(** [q] occurs in [s]. *)
Definition occurs_in (q s : string) : Prop :=
  exists pre post, s = pre +:+ q +:+ post.


(** The item has strings as its name and its sku. *)
Definition searchable (i : item) : Prop :=
  exists name sku, prop "name" i = Some (VStr name) /\
                   prop "sku" i = Some (VStr sku).

(** ** The dashboard *)

Definition LOW_STOCK_THRESHOLD : Z := 5.

(** The four numbers that [updateStats] writes to the dashboard. *)
Record stats := Stats {
  totalItems : nat;
  totalQuantity : Z;
  categories : nat;
  lowStock : nat;
}.

(** [l.reduce((sum, item) => sum + item.quantity, sum)]; a quantity that
    is not a number would be coerced by the sum.  The sum is written
    over the integers: it is the sum of the language as long as the
    partial sums stay within 2^53. *)
Fixpoint sum_quantity (sum : Z) (l : list item) : outcome Z :=
  match l with
  | [] => Ok sum
  | i :: r =>
    match prop "quantity" i with
    | Some (VNum q) => sum_quantity (sum + q) r
    | _ => Beyond
    end
  end.

(** [item.quantity < LOW_STOCK_THRESHOLD] *)
Definition is_low (i : item) : outcome bool :=
  match prop "quantity" i with
  | Some (VNum q) => Ok (q <? LOW_STOCK_THRESHOLD)
  | _ => Beyond
  end.

(** ** More vocabulary *)

(** The name of the item is a string. *)
Definition has_name (i : item) : Prop :=
  exists name, prop "name" i = Some (VStr name).


(** The quantity of the item is an integer and its category a string. *)
Definition countable (i : item) : Prop :=
  (exists q, prop "quantity" i = Some (VNum q)) /\
  (exists c, prop "category" i = Some (VStr c)).


(** The quantity of the item where it is an integer. *)
Definition quantity_of (i : item) : Z :=
  match prop "quantity" i with
  | Some (VNum q) => q
  | _ => 0
  end.

Definition sum_of (l : list item) : Z :=
  foldr (fun i t => quantity_of i + t) 0 l.

Definition low (i : item) : bool := quantity_of i <? LOW_STOCK_THRESHOLD.

(** ** The theme *)

(** The attribute [data-theme] of the document element and the storage
    slot [stockflow_theme]; an absent attribute or slot reads [null]. *)
Record theme_state := ThemeState {
  data_theme : option string;
  stockflow_theme : option string;
}.

(** [x === 'dark'] for a string or [null]. *)
Definition is_dark (x : option string) : bool :=
  match x with
  | Some s => String.eqb s "dark"
  | None => false
  end.


(** ** The manual CRUD variant *)

Module Full.

(** The collection and the storage slot.  The selections of the two
    dialogs (editingItemId, deletingItemId) only choose which operation
    the handlers call, and with which id. *)
Record state := State {
  inventory : list item;
  storage : option string;   (* the slot STORAGE_KEY of localStorage *)
}.

Definition init : state := State [] None.

(** [loadInventory]: the value assigned to [inventory]. *)
Definition loadInventory (stored : option string) : outcome value :=
  try_catch
    (match stored with
     | Some text =>
       if truthy (VStr text) then JSON.parse text else Ok (VArr [])
     | None => Ok (VArr [])
     end)
    (fun error => Ok (VArr [])).

(** [saveInventory]: the write is taken to succeed; a refused write is
    caught and reported, and leaves [inventory] as it is, which
    [run_write] adds. *)
Definition saveInventory (st : state) : state :=
  State (inventory st) (Some (JSON.stringify (array_of (inventory st)))).

(** [generateId]: [now] is [Date.now()], [rnd] is
    [Math.random().toString(36)]. *)
Definition generateId (now : Z) (rnd : string) : string :=
  "item_" +:+ show_Z now +:+ "_" +:+ substring 2 9 rnd.

Definition getCategories (st : state) : outcome (list string) :=
  cs ← categories_of (inventory st); Ok (sort (Set_values cs)).

(** The filter of [renderTable]. *)
Definition matchesSearch (searchQuery : string) (i : item) : outcome bool :=
  match prop "name" i with
  | Some (VStr name) =>
    if includes searchQuery (toLowerCase name) then Ok true
    else match prop "sku" i with
         | Some (VStr sku) => Ok (includes searchQuery (toLowerCase sku))
         | _ => Throw TypeError
         end
  | _ => Throw TypeError
  end.

Definition filteredItems (searchInput categoryFilter : string) (st : state)
  : outcome (list item) :=
  let searchQuery := toLowerCase searchInput in
  filter_o (fun i =>
    matchesSearch ← matchesSearch searchQuery i;
    let matchesCategory :=
      String.eqb categoryFilter "all" || prop_is "category" categoryFilter i in
    Ok (matchesSearch && matchesCategory)) (inventory st).

(** [addItem]: [created] and [updated] are the two readings of
    [getTimestamp()]. *)
Definition addItem (itemData : item) (now : Z) (rnd created updated : string)
  (st : state) : state :=
  let newItem :=
    <["updatedAt" := VStr updated]>
      (<["createdAt" := VStr created]>
         (<["id" := VStr (generateId now rnd)]> itemData)) in
  saveInventory (State (newItem :: inventory st) (storage st)).

(** [updateItem]: [ts] is the reading of [getTimestamp()]. *)
Definition updateItem (id : string) (updates : item) (ts : string)
  (st : state) : state :=
  match find_first (prop_is "id" id) (inventory st) with
  | Some (index, old) =>
    saveInventory
      (State (<[index := <["updatedAt" := VStr ts]> (updates ∪ old)]>
                (inventory st))
             (storage st))
  | None => st
  end.

(** [updateQuantity]: a quantity that is not a number would be coerced
    by the sum, which leaves the fragment. *)
Definition updateQuantity (id : string) (delta : Z) (ts : string)
  (st : state) : outcome state :=
  match find (prop_is "id" id) (inventory st) with
  | Some i =>
    match prop "quantity" i with
    | Some (VNum q) =>
      let newQuantity := Z.max 0 (Number_add q delta) in
      Ok (updateItem id {[ "quantity" := VNum newQuantity ]} ts st)
    | _ => Beyond
    end
  | None => Ok st
  end.

Definition deleteItem (id : string) (st : state) : state :=
  match find (prop_is "id" id) (inventory st) with
  | Some _ =>
    saveInventory
      (State (filter (fun i => prop_is "id" id i = false) (inventory st))
             (storage st))
  | None => st
  end.

(** The object that [handleFormSubmit] builds from the form, for a
    quantity field that holds an integer. *)
Definition itemData (name sku category : string) (quantity : Z)
  (unit notes : string) : item :=
  <["name" := VStr name]>
    (<["sku" := VStr sku]>
       (<["category" := VStr category]>
          (<["quantity" := VNum quantity]>
             (<["unit" := VStr unit]>
                (<["notes" := VStr notes]> ∅))))).

(** The operations of the store as actions, with the readings of the
    clock and of the random generator they consume. *)
Inductive action :=
| Add (itemData : item) (now : Z) (rnd created updated : string)
| Update (id : string) (updates : item) (ts : string)
| Adjust (id : string) (delta : Z) (ts : string)
| Delete (id : string).

Definition run (a : action) (st : state) : outcome state :=
  match a with
  | Add d now rnd c u => Ok (addItem d now rnd c u st)
  | Update id ups ts => Ok (updateItem id ups ts st)
  | Adjust id delta ts => updateQuantity id delta ts st
  | Delete id => Ok (deleteItem id st)
  end.

Fixpoint run_all (acts : list action) (st : state) : outcome state :=
  match acts with
  | [] => Ok st
  | a :: r => st' ← run a st; run_all r st'
  end.

(** A draft or a patch whose quantity, if it has one, is an integer that
    is not negative (a draft must have one). *)
Definition quantity_ok (a : action) : bool :=
  match a with
  | Add d _ _ _ _ => nonneg_quantity d
  | Update _ ups _ =>
    match prop "quantity" ups with
    | None => true
    | Some (VNum q) => 0 <=? q
    | Some _ => false
    end
  | _ => true
  end.

(** A patch without the property [id]. *)
Definition keeps_id (a : action) : bool :=
  match a with
  | Update _ ups _ =>
    match prop "id" ups with None => true | Some _ => false end
  | _ => true
  end.

(** The ids that the [Add] actions generate. *)
Fixpoint generated (acts : list action) : list string :=
  match acts with
  | [] => []
  | Add _ now rnd _ _ :: r => generateId now rnd :: generated r
  | _ :: r => generated r
  end.

(** [updateStats] *)
Definition updateStats (st : state) : outcome stats :=
  let totalItems := length (inventory st) in
  totalQuantity ← sum_quantity 0 (inventory st);
  categories ← getCategories st;
  lowStock ← filter_o is_low (inventory st);
  Ok (Stats totalItems totalQuantity (length categories) (length lowStock)).

(** [initTheme], up to the registration of the click handler:
    [prefersDark] is the reading of the media query. *)
Definition initTheme (prefersDark : bool) (t : theme_state) : theme_state :=
  let savedTheme := stockflow_theme t in
  if is_dark savedTheme
     || negb (truthy (from_option VStr VNull savedTheme)) && prefersDark
  then ThemeState (Some "dark") (stockflow_theme t)
  else t.

(** The click handler that [initTheme] registers. *)
Definition toggleTheme (t : theme_state) : theme_state :=
  let isDark := is_dark (data_theme t) in
  let newTheme := if isDark then "light" else "dark" in
  ThemeState (Some newTheme) (Some newTheme).

(** [openDeleteModal]: the new value of [deletingItemId]. *)
Definition openDeleteModal (id : string) (st : state)
  (deletingItemId : option string) : option string :=
  match find (prop_is "id" id) (inventory st) with
  | Some item => Some id
  | None => deletingItemId
  end.

Definition closeDeleteModal : option string := None.

(** The click handler of the confirm button, with what [deleteItem]
    calls: [accepted] tells whether the storage accepts the write (a
    refused write is caught in [saveInventory] and leaves the slot as it
    was), [searchInput] and [categoryFilter] are what [renderTable]
    reads from the page.  [deleteItem] renders the table only when it
    has found an item; an exception of [renderTable] leaves [deleteItem]
    and the handler before [closeDeleteModal] is reached.  The result is
    the state and the new value of [deletingItemId]. *)
Definition confirmDelete (accepted : bool) (searchInput categoryFilter : string)
  (st : state) (deletingItemId : option string) : state * option string :=
  if truthy (from_option VStr VNull deletingItemId) then
    let id := default EmptyString deletingItemId in
    match find (prop_is "id" id) (inventory st) with
    | Some _ =>
      let st' := if accepted then deleteItem id st
                 else State (inventory (deleteItem id st)) (storage st) in
      match filteredItems searchInput categoryFilter st' with
      | Ok _ => (st', closeDeleteModal)
      | _ => (st', deletingItemId)
      end
    | None => (st, closeDeleteModal)
    end
  else (st, deletingItemId).

(** An operation with the answer of the storage to its write: a refused
    write is caught in [saveInventory] and reported, the operation goes
    on, and the slot is as it was before the operation. *)
Definition run_write (accepted : bool) (a : action) (st : state)
  : outcome state :=
  st' ← run a st;
  Ok (if accepted then st' else State (inventory st') (storage st)).

Fixpoint run_writes (acts : list (bool * action)) (st : state)
  : outcome state :=
  match acts with
  | [] => Ok st
  | (accepted, a) :: r => st' ← run_write accepted a st; run_writes r st'
  end.

End Full.

(** ** The scan-only variant *)

Module Scan.

Record state := State {
  inventory : list item;
  storage : option string;
  deletingItemId : option string;
  scanCooldown : bool;
}.

Definition init : state := State [] None None false.

(** [JSON.parse(localStorage.getItem(STORAGE_KEY)) || []]: an absent
    entry is [null], which [JSON.parse] reads as the text null. *)
Definition loadInventory (stored : option string) : outcome value :=
  v ← JSON.parse (default "null" stored);
  Ok (if truthy v then v else VArr []).

(** [saveInventory]: the write is taken to succeed; a refused write
    throws out of the handler that calls it, which [run_write] adds. *)
Definition saveInventory (st : state) : state :=
  State (inventory st) (Some (JSON.stringify (array_of (inventory st))))
        (deletingItemId st) (scanCooldown st).

Definition generateId (now : Z) (rnd : string) : string :=
  "item_" +:+ show_Z now +:+ "_" +:+ substring 2 6 rnd.

Definition getCategories (st : state) : outcome (list string) :=
  cs ← categories_of (inventory st); Ok (Set_values cs).

(** [i.sku.includes(q)]: a string searches a substring, an array
    searches an element, anything else has no such method. *)
Definition sku_includes (q : string) (i : item) : outcome bool :=
  match prop "sku" i with
  | Some (VStr sku) => Ok (includes q sku)
  | Some (VArr l) =>
    Ok (existsb (fun v => match v with VStr s => String.eqb s q | _ => false end) l)
  | _ => Throw TypeError
  end.

(** The filter of [renderTable]. *)
Definition filtered (searchInput cat : string) (st : state)
  : outcome (list item) :=
  let q := toLowerCase searchInput in
  filter_o (fun i =>
    match prop "name" i with
    | Some (VStr name) =>
      search ← (if includes q (toLowerCase name) then Ok true
                else sku_includes q i);
      Ok (search && (String.eqb cat "all" || prop_is "category" cat i))
    | _ => Throw TypeError
    end) (inventory st).

(** [changeQty] assigns to the item it has found, that is, to the
    element of the array at that index. *)
Definition changeQty (id : string) (d : Z) (st : state) : outcome state :=
  match find_first (prop_is "id" id) (inventory st) with
  | None => Ok st
  | Some (index, i) =>
    match prop "quantity" i with
    | Some (VNum q) =>
      Ok (saveInventory
            (State (<[index := <["quantity" := VNum (Z.max 0 (Number_add q d))]> i]>
                      (inventory st))
                   (storage st) (deletingItemId st) (scanCooldown st)))
    | _ => Beyond
    end
  end.

Definition openDeleteModal (id : string) (st : state) : state :=
  State (inventory st) (storage st) (Some id) (scanCooldown st).

Definition closeDeleteModal (st : state) : state :=
  State (inventory st) (storage st) None (scanCooldown st).

(** [i.id !== deletingItemId], where no selection is [null]. *)
Definition id_differs (sel : option string) (i : item) : bool :=
  match sel with
  | Some id => negb (prop_is "id" id i)
  | None => match prop "id" i with Some VNull => false | _ => true end
  end.

(** The click handler of the confirm button when it runs to its end
    (the write accepted, the table rendered); [confirmDeleteClick]
    follows it call by call. *)
Definition confirmDelete (st : state) : state :=
  closeDeleteModal
    (saveInventory
       (State (filter (fun i => id_differs (deletingItemId st) i = true)
                      (inventory st))
              (storage st) (deletingItemId st) (scanCooldown st))).

(** The object literal of [onBarcodeDetected]. *)
Definition autoProduct (barcode : string) (now : Z) (rnd : string) : item :=
  <["id" := VStr (generateId now rnd)]>
    (<["name" := VStr "Auto Product"]>
       (<["sku" := VStr barcode]>
          (<["category" := VStr "General"]>
             (<["quantity" := VNum 1]>
                (<["unit" := VStr "pcs"]> ∅))))).

Definition onBarcodeDetected (barcode : string) (now : Z) (rnd : string)
  (st : state) : outcome state :=
  if scanCooldown st then Ok st
  else
    inv ← match find_first (prop_is "sku" barcode) (inventory st) with
          | Some (index, i) =>
            match prop "quantity" i with
            | Some (VNum q) =>
              Ok (<[index := <["quantity" := VNum (Number_add q 1)]> i]>
                    (inventory st))
            | _ => Beyond
            end
          | None => Ok (autoProduct barcode now rnd :: inventory st)
          end;
    Ok (saveInventory (State inv (storage st) (deletingItemId st) true)).

(** The timer callback that ends the cooldown after 1200 ms. *)
Definition cooldownElapsed (st : state) : state :=
  State (inventory st) (storage st) (deletingItemId st) false.

Inductive action :=
| Detect (barcode : string) (now : Z) (rnd : string)
| ChangeQty (id : string) (d : Z)
| OpenDelete (id : string)
| CloseDelete
| ConfirmDelete
| CooldownElapsed.

Definition run (a : action) (st : state) : outcome state :=
  match a with
  | Detect barcode now rnd => onBarcodeDetected barcode now rnd st
  | ChangeQty id d => changeQty id d st
  | OpenDelete id => Ok (openDeleteModal id st)
  | CloseDelete => Ok (closeDeleteModal st)
  | ConfirmDelete => Ok (confirmDelete st)
  | CooldownElapsed => Ok (cooldownElapsed st)
  end.

Fixpoint run_all (acts : list action) (st : state) : outcome state :=
  match acts with
  | [] => Ok st
  | a :: r => st' ← run a st; run_all r st'
  end.

(** The ids that the scans can generate. *)
Fixpoint generated (acts : list action) : list string :=
  match acts with
  | [] => []
  | Detect _ now rnd :: r => generateId now rnd :: generated r
  | _ :: r => generated r
  end.

(** [updateStats] *)
Definition updateStats (st : state) : outcome stats :=
  let totalItems := length (inventory st) in
  totalQuantity ← sum_quantity 0 (inventory st);
  categories ← getCategories st;
  lowStock ← filter_o is_low (inventory st);
  Ok (Stats totalItems totalQuantity (length categories) (length lowStock)).

(** One scan of the barcode for every pair of readings, each followed by
    the end of its cooldown. *)
Definition scan_times (barcode : string) (readings : list (Z * string))
  : list action :=
  concat (map (fun r => [Detect barcode r.1 r.2; CooldownElapsed]) readings).

(** The click handler of the theme button; nothing is stored. *)
Definition toggleTheme (t : theme_state) : theme_state :=
  let dark := is_dark (data_theme t) in
  ThemeState (Some (if dark then "light" else "dark")) (stockflow_theme t).

(** The barcode that the simulation in [openAddModal] passes to
    [onBarcodeDetected]: [now] is the reading of [Date.now()] when the
    timer fires. *)
Definition simulatedBarcode (now : Z) : string := "SKU-" +:+ show_Z now.


(** An operation with the answer of the storage to its write: a refused
    write throws out of the handler, so what the handler has assigned
    before the write stays, the slot is as it was, and what follows the
    write is not run (the confirm handler keeps its selection). *)
Definition run_write (accepted : bool) (a : action) (st : state)
  : outcome state :=
  st' ← run a st;
  Ok (if accepted then st'
      else State (inventory st') (storage st)
                 (match a with
                  | ConfirmDelete => deletingItemId st
                  | _ => deletingItemId st'
                  end)
                 (scanCooldown st')).

Fixpoint run_writes (acts : list (bool * action)) (st : state)
  : outcome state :=
  match acts with
  | [] => Ok st
  | (accepted, a) :: r => st' ← run_write accepted a st; run_writes r st'
  end.

End Scan.

(** ** Sample data *)

Definition widget : item :=
  Full.itemData "Widget" "W-1" "Tools" 2 "pcs" EmptyString.
Definition gadget : item :=
  Full.itemData "Gadget" "G-7" "General" 9 "pcs" EmptyString.

(** Two additions of the CRUD variant, at different clock readings. *)
Definition two_adds : list Full.action :=
  [Full.Add gadget 1700000000000 "0.4fzyo82mvyr" "T0" "T0";
   Full.Add widget 1700000000500 "0.k2j9x7c1q0z" "T1" "T1"].

Definition two_items : Full.state :=
  Full.addItem widget 1700000000500 "0.k2j9x7c1q0z" "T1" "T1"
    (Full.addItem gadget 1700000000000 "0.4fzyo82mvyr" "T0" "T0" Full.init).

(** The scan-only variant started on the collection that the CRUD
    variant has saved (both use the same storage slot). *)
Definition scan_two_items : Scan.state :=
  Scan.State (Full.inventory two_items) (Full.storage two_items) None false.

(** Two scans of one barcode, a cooldown apart. *)
Definition two_scans : list Scan.action :=
  [Scan.Detect "SKU-1700000002000" 1700000002000 "0.9c3k1vq8d2";
   Scan.CooldownElapsed;
   Scan.Detect "SKU-1700000002000" 1700000004000 "0.7m2p0aa4xs"].

(** A collection with one scanned item. *)
Definition one_scan : Scan.state :=
  Scan.State [Scan.autoProduct "SKU-1" 1700000000000 "0.4fzyo82mvyr"]
             None None false.

Definition after_two_scans : Scan.state :=
  match Scan.run_all two_scans Scan.init with
  | Ok st => st
  | _ => Scan.init
  end.

(** A draft with a negative quantity. *)
Definition returned : item :=
  Full.itemData "Widget" "W-1" "Tools" (-3) "pcs" EmptyString.

(** Two additions that read the same clock value and draw the same
    random number. *)
Definition same_draw : list Full.action :=
  [Full.Add gadget 1700000000000 "0.4fzyo82mvyr" "T0" "T0";
   Full.Add widget 1700000000000 "0.4fzyo82mvyr" "T1" "T1"].

Definition one_item : Full.state :=
  Full.addItem gadget 1700000000000 "0.4fzyo82mvyr" "T0" "T0" Full.init.


(** A stock of 2^53 units, the largest quantity up to which a number
    holds every integer. *)
Definition grain : item :=
  Full.itemData "Grain" "GR-1" "Bulk" 9007199254740992 "kg" EmptyString.

Definition one_grain : Full.state :=
  Full.addItem grain 1700000000000 "0.4fzyo82mvyr" "T0" "T0" Full.init.

(** The scan-only variant on the collection that the CRUD variant has
    saved. *)
Definition scan_one_grain : Scan.state :=
  Scan.State (Full.inventory one_grain) (Full.storage one_grain) None false.

(** * Proofs *)

#[local] Arguments String.append !_ _ / : simpl nomatch.

(** ** JSON: parsing inverts serialisation *)

Section JSON_facts.
Import JSON.


Lemma append_assoc (a b c : string) : (a +:+ b) +:+ c = a +:+ (b +:+ c).
Proof. induction a as [|x a IH]; simpl; [done | by rewrite IH]. Qed.

Lemma append_nil_r (a : string) : a +:+ EmptyString = a.
Proof. induction a as [|x a IH]; simpl; [done | by rewrite IH]. Qed.

Lemma length_append (a b : string) :
  String.length (a +:+ b) = (String.length a + String.length b)%nat.
Proof. induction a as [|x a IH]; simpl; [done | by rewrite IH]. Qed.

Lemma vsize_elem (l : list value) (x : value) : x ∈ l → (vsize x < vsize (VArr l))%nat.
Proof.
  induction 1 as [x l | x y l _ IH]; simpl in *; lia.
Qed.

Lemma vsize_lookup (m : gmap string value) (k : string) (x : value) :
  m !! k = Some x → (vsize x < vsize (VObj m))%nat.
Proof.
  intros Hk. simpl. rewrite <- (insert_delete_id m k x Hk).
  rewrite map_fold_insert_L.
  - lia.
  - intros; lia.
  - apply lookup_delete_eq.
Qed.

Lemma value_ind' (P : value → Prop) :
  P VNull → (∀ b, P (VBool b)) → (∀ z, P (VNum z)) → (∀ s, P (VStr s)) →
  (∀ l, Forall P l → P (VArr l)) →
  (∀ m, map_Forall (λ _, P) m → P (VObj m)) →
  ∀ v, P v.
Proof.
  intros Hnull Hbool Hnum Hstr Harr Hobj v.
  remember (vsize v) as n eqn:Hn. revert v Hn.
  induction (lt_wf n) as [n _ IH]. intros v ->.
  destruct v; auto.
  - apply Harr, Forall_forall. intros x Hx.
    eapply IH; [by apply vsize_elem | done].
  - apply Hobj. intros k x Hk.
    eapply IH; [by eapply vsize_lookup | done].
Qed.


Lemma append_cons (c : ascii) (a b : string) : String c a +:+ b = String c (a +:+ b).
Proof. reflexivity. Qed.


Lemma lex_string_unit (c : ascii) (t : string) :
  lex_string (quote_unit c +:+ t) = push c <$> lex_string t.
Proof.
  destruct c as [[] [] [] [] [] [] [] []]; reflexivity.
Qed.

Lemma lex_string_quote (s r : string) :
  lex_string (quote_body s +:+ String dquote r) = Ok (s, r).
Proof.
  induction s as [|c s IH]; simpl; [done|].
  rewrite append_assoc, lex_string_unit, IH. done.
Qed.


Lemma follow_no_digit (s : string) : follow s → no_digit s.
Proof.
  destruct s as [|c s]; [done|]. unfold follow, no_digit, digit_of.
  intros [-> | [-> | ->]]; done.
Qed.

Lemma follow_no_fraction (s : string) : follow s → starts_fraction s = false.
Proof.
  destruct s as [|c s]; [done|]. unfold follow, starts_fraction.
  intros [-> | [-> | ->]]; done.
Qed.

Lemma lex_digits_uint (u : uint) (r : string) :
  no_digit r → lex_digits (NilEmpty.string_of_uint u +:+ r) = (u, r).
Proof.
  intros Hr. induction u; simpl; try (rewrite IHu; reflexivity).
  destruct r as [|c r]; simpl in *; [done | by rewrite Hr].
Qed.

Lemma to_uint_head (n : N) :
  N.to_uint n = D0 Nil ∧ n = 0%N ∨
  (∀ u, N.to_uint n ≠ D0 u) ∧ N.to_uint n ≠ Nil.
Proof.
  destruct (decide (n = 0%N)) as [-> | Hn]; [by left | right].
  assert (Hnorm : unorm (N.to_uint n) = N.to_uint n).
  { rewrite <- (DecimalN.Unsigned.to_of (N.to_uint n)).
    by rewrite DecimalN.Unsigned.of_to. }
  assert (Hnz : nzhead (N.to_uint n) ≠ Nil).
  { intros Hnil. apply Hn. rewrite <- (DecimalN.Unsigned.of_to n).
    rewrite <- Hnorm. unfold unorm. by rewrite Hnil. }
  split.
  - intros u Hu. rewrite Hu in Hnorm.
    rewrite DecimalFacts.unorm_D0 in Hnorm.
    destruct (uint_eq_dec u Nil) as [-> | Hu'].
    + apply Hn. rewrite <- (DecimalN.Unsigned.of_to n), Hu. done.
    + pose proof (DecimalFacts.nb_digits_unorm u Hu') as Hlen.
      rewrite Hnorm in Hlen. simpl in Hlen. lia.
  - intros Hnil. rewrite Hnil in Hnz. done.
Qed.

Lemma lex_number_show (n : N) (r : string) :
  follow r → lex_number (show_N n +:+ r) = Ok (n, r).
Proof.
  intros Hr. unfold lex_number, show_N.
  rewrite lex_digits_uint by by apply follow_no_digit.
  rewrite (follow_no_fraction r Hr).
  destruct (to_uint_head n) as [[-> ->] | [Hd Hnil]]; [done|].
  pose proof (DecimalN.Unsigned.of_to n) as Hof.
  destruct (N.to_uint n) as [|u|u|u|u|u|u|u|u|u|u] eqn:E;
    try (by rewrite Hof); [done | by destruct (Hd u)].
Qed.

Lemma show_N_head (n : N) :
  ∃ c s, show_N n = String c s ∧ is_Some (digit_of c).
Proof.
  unfold show_N. destruct (to_uint_head n) as [[-> ->] | [_ Hnil]].
  - by eexists _, _.
  - destruct (N.to_uint n); try done; simpl; by eexists _, _.
Qed.


Lemma lexfrom_weaken (n n' : nat) (s : string) (ts : list token) :
  lexfrom n s ts → (n ≤ n')%nat → lexfrom n' s ts.
Proof. intros H Hn m Hm. apply H. lia. Qed.

Lemma lexfrom_nil : lexfrom 0 EmptyString [].
Proof. intros [|m] _; reflexivity. Qed.

Lemma lexfrom_punct (c : ascii) (t : token) (n : nat) (s : string) (ts : list token) :
  punct (code c) = Some t → lexfrom n s ts → lexfrom (S n) (String c s) (t :: ts).
Proof.
  intros Hc Hs [|m] Hm; [lia|].
  assert (Hws : is_ws (code c) = false).
  { destruct c as [[] [] [] [] [] [] [] []]; done. }
  simpl. rewrite Hws, Hc, Hs by lia. done.
Qed.

Lemma lexfrom_quote (k : string) (n : nat) (s : string) (ts : list token) :
  lexfrom n s ts → lexfrom (S n) (quote k +:+ s) (TStr k :: ts).
Proof.
  intros Hs [|m] Hm; [lia|].
  unfold quote. rewrite append_cons, append_assoc. simpl.
  change (String dquote EmptyString +:+ s) with (String dquote s).
  rewrite lex_string_quote. simpl. rewrite Hs by lia. done.
Qed.

Lemma digit_head (c : ascii) :
  is_Some (digit_of c) →
  is_ws (code c) = false ∧ punct (code c) = None ∧
  (code c =? 34)%N = false ∧ (code c =? 45)%N = false.
Proof.
  intros [d Hd]. destruct c as [[] [] [] [] [] [] [] []]; done.
Qed.

Lemma lexfrom_number (z : Z) (n : nat) (s : string) (ts : list token) :
  follow s → lexfrom n s ts → lexfrom (S n) (show_Z z +:+ s) (TNum z :: ts).
Proof.
  intros Hf Hs [|m] Hm; [lia|].
  assert (Hnat : ∀ k, lex (S m) (show_N k +:+ s) = Ok (TNum (Z.of_N k) :: ts)).
  { intros k. destruct (show_N_head k) as (c & r & Hk & Hc).
    pose proof (lex_number_show k s Hf) as Hnum. rewrite Hk in Hnum |- *.
    destruct (digit_head c Hc) as (Hws & Hp & Hq & Hm').
    destruct Hc as [d Hd].
    rewrite append_cons in Hnum |- *.
    cbn [lex]. rewrite Hws, Hp, Hq, Hm', Hd, Hnum. simpl.
    rewrite Hs by lia. done. }
  destruct z as [|p|p]; simpl show_Z.
  - apply (Hnat 0%N).
  - apply (Hnat (Npos p)).
  - rewrite append_cons. cbn [lex].
    change (is_ws (code (ch 45))) with false. cbn match.
    change (punct (code (ch 45))) with (@None token). cbn match.
    change (code (ch 45) =? 34)%N with false.
    change (code (ch 45) =? 45)%N with true. cbn match.
    rewrite (lex_number_show _ s Hf). simpl. rewrite Hs by lia. done.
Qed.

Lemma lexfrom_keyword (kw : string) (t : token) (n : nat) (s : string) (ts : list token) :
  (kw, t) ∈ [("null", TNull); ("true", TTrue); ("false", TFalse)] →
  lexfrom n s ts → lexfrom (S n) (kw +:+ s) (t :: ts).
Proof.
  intros Hkw Hs [|m] Hm; [lia|].
  assert (Hm' : lex m s = Ok ts) by (apply Hs; lia).
  repeat (apply elem_of_cons in Hkw as [[= -> ->] | Hkw]);
    [| | | by apply elem_of_nil in Hkw].
  all: cbn; rewrite Hm'; done.
Qed.


Lemma map_fold_cons {B} (f : string → value → B) (m : gmap string value) :
  map_fold (fun k x acc => f k x :: acc) [] m
  = (fun kv => f kv.1 kv.2) <$> map_to_list m.
Proof.
  rewrite map_fold_foldr. induction (map_to_list m) as [|[k x] l IH]; simpl;
    [done | by rewrite IH].
Qed.

Lemma lexes_nil : lexes EmptyString [].
Proof. split; [done|]. intros s ts n _ H. exact H. Qed.

Lemma lexes_rest (xs : list string) (tss : list (list token)) :
  Forall2 lexes xs tss → lexes (rest_comma xs) (rest_toks tss).
Proof.
  induction 1 as [|x ts xs tss [Hlen Hx] _ [IHlen IH]]; [apply lexes_nil|].
  split.
  - simpl. rewrite length_app, !length_append. simpl. lia.
  - intros s ts' n Hs Hlex. simpl.
    rewrite !append_assoc, <- app_assoc. simpl.
    eapply lexfrom_weaken.
    + apply (lexfrom_punct ","%char TComma); [done|].
      apply (Hx (rest_comma xs +:+ s)); [|by apply IH].
      destruct xs; simpl; [done | by left].
    + rewrite !length_app. simpl. lia.
Qed.

Lemma lexes_join (xs : list string) (tss : list (list token)) :
  Forall2 lexes xs tss → lexes (join_comma xs) (sep_by tss).
Proof.
  destruct 1 as [|x ts xs tss [Hlen Hx] Hr]; [apply lexes_nil|].
  destruct (lexes_rest xs tss Hr) as [Hrlen Hrest].
  split.
  - unfold join_comma, sep_by.
    rewrite length_app, !length_append. lia.
  - intros s ts' n Hs Hlex. unfold join_comma, sep_by.
    rewrite !append_assoc, <- app_assoc.
    eapply lexfrom_weaken.
    + apply (Hx (rest_comma xs +:+ s)); [|by apply Hrest].
      destruct xs; simpl; [done | by left].
    + rewrite !length_app. lia.
Qed.

(** A bracketed, comma-separated sequence. *)
Lemma lexes_enclosed (o c : ascii) (to tc : token) (xs : list string)
    (tss : list (list token)) :
  punct (code o) = Some to → punct (code c) = Some tc →
  code c = 93%N ∨ code c = 125%N →
  Forall2 lexes xs tss →
  lexes (String o EmptyString +:+ join_comma xs +:+ String c EmptyString)
        (to :: sep_by tss ++ [tc]).
Proof.
  intros Ho Hc Hcf HF. destruct (lexes_join xs tss HF) as [Hlen Hjoin].
  split.
  - simpl. rewrite length_app, !length_append. simpl. lia.
  - intros s ts n _ Hlex. simpl.
    rewrite !append_assoc, <- app_assoc. simpl.
    eapply lexfrom_weaken.
    + apply (lexfrom_punct o to); [done|].
      apply (Hjoin (String c s)); [|by apply (lexfrom_punct c tc)].
      simpl. tauto.
    + rewrite !length_app. simpl. lia.
Qed.

Lemma quote_length (k : string) : (1 ≤ String.length (quote k))%nat.
Proof. unfold quote. simpl. lia. Qed.

Lemma lexes_member (k : string) (x : string) (ts : list token) :
  lexes x ts → lexes (quote k +:+ ":" +:+ x) (TStr k :: TColon :: ts).
Proof.
  intros [Hlen Hx]. split.
  - pose proof (quote_length k). rewrite !length_append. simpl. lia.
  - intros s ts' n Hs Hlex. rewrite !append_assoc. simpl.
    apply (lexfrom_quote k), (lexfrom_punct ":"%char TColon); [done|].
    by apply Hx.
Qed.

Theorem lex_stringify (v : value) : lexes (stringify v) (tokens v).
Proof.
  induction v as [|[]|z|s|l IH|m IH] using value_ind'.
  - split; [simpl; lia|]. intros s ts n _ H.
    by apply (lexfrom_keyword "null" TNull); [set_solver|].
  - split; [simpl; lia|]. intros s ts n _ H.
    by apply (lexfrom_keyword "true" TTrue); [set_solver|].
  - split; [simpl; lia|]. intros s ts n _ H.
    by apply (lexfrom_keyword "false" TFalse); [set_solver|].
  - split.
    + simpl. destruct z; simpl; try lia;
        match goal with |- context [show_N ?k] =>
          destruct (show_N_head k) as (c & r & -> & _) end; simpl; lia.
    + intros s ts n Hs H. by apply lexfrom_number.
  - split; [apply quote_length|]. intros s' ts n _ H.
    by apply lexfrom_quote.
  - simpl. apply (lexes_enclosed "["%char "]"%char); [done | done | by left |].
    apply Forall2_fmap, Forall_Forall2_diag. exact IH.
  - simpl. rewrite !map_fold_cons.
    apply (lexes_enclosed "{"%char "}"%char); [done | done | by right |].
    apply Forall2_fmap, Forall_Forall2_diag.
    apply map_Forall_to_list in IH.
    eapply Forall_impl; [exact IH|]. intros [k x] Hx. simpl in *.
    by apply lexes_member.
Qed.


Lemma tokens_head (v : value) :
  ∃ t r, tokens v = t :: r ∧ starts_value t = true.
Proof. destruct v as [|[]| | | |]; simpl; by eexists _, _. Qed.

Lemma parse_value_array (f : nat) (t : token) (r : list token) :
  starts_value t = true →
  parse_value (S f) (TLBracket :: t :: r)
  = '(v, r1) ← parse_value f (t :: r); parse_elements f [v] r1.
Proof. by destruct t. Qed.

Lemma parse_value_object (f : nat) (k : string) (r : list token) :
  parse_value (S f) (TLBrace :: TStr k :: TColon :: r)
  = '(v, r1) ← parse_value f r; parse_members f (<[k:=v]> ∅) r1.
Proof. done. Qed.

Lemma parse_elements_tokens (l : list value) :
  Forall parses l → ∀ acc fuel rest,
  (length (rest_toks (tokens <$> l)) < fuel)%nat →
  parse_elements fuel acc (rest_toks (tokens <$> l) ++ TRBracket :: rest)
  = Ok (VArr (reverse acc ++ l), rest).
Proof.
  induction 1 as [|x l Hx _ IH]; intros acc [|fuel] rest Hfuel; try (simpl in Hfuel; lia).
  - simpl. by rewrite app_nil_r.
  - csimpl in *. rewrite length_app in Hfuel.
    rewrite <- app_assoc, Hx by lia. csimpl.
    rewrite IH by lia. rewrite reverse_cons, <- app_assoc. done.
Qed.

Lemma parse_members_tokens (l : list (string * value)) :
  Forall (fun kv => parses kv.2) l → ∀ acc fuel rest,
  (length (rest_toks (member_tokens <$> l)) < fuel)%nat →
  parse_members fuel acc (rest_toks (member_tokens <$> l) ++ TRBrace :: rest)
  = Ok (VObj (foldl put acc l), rest).
Proof.
  induction 1 as [|[k x] l Hx _ IH]; intros acc [|fuel] rest Hfuel; try (simpl in Hfuel; lia).
  - done.
  - csimpl in *. rewrite length_app in Hfuel.
    rewrite <- app_assoc, Hx by lia. csimpl.
    rewrite IH by lia. done.
Qed.

Lemma foldl_put (l : list (string * value)) (acc : gmap string value) :
  NoDup l.*1 → foldl put acc l = list_to_map l ∪ acc.
Proof.
  revert acc. induction l as [|[k x] l IH]; intros acc Hnd; csimpl.
  - by rewrite (left_id_L ∅ (∪)).
  - apply NoDup_cons in Hnd as [Hk Hnd]. rewrite IH by done.
    unfold put. simpl. rewrite <- insert_union_l.
    symmetry. apply insert_union_r. by apply not_elem_of_list_to_map_1.
Qed.

Theorem parse_tokens (v : value) : parses v.
Proof.
  induction v as [|[]|z|s|l IH|m IH] using value_ind';
    try (intros [|fuel] rest Hfuel; [simpl in Hfuel; lia | done]).
  - intros [|fuel] rest Hfuel; [lia|].
    destruct IH as [|x l Hx IH]; [done|].
    cbn [tokens map sep_by] in *.
    change (map tokens l) with (tokens <$> l) in *.
    destruct (tokens_head x) as (t & r & Hhd & Ht).
    simpl in Hfuel. rewrite !length_app in Hfuel.
    rewrite <- !app_comm_cons, <- !app_assoc, Hhd, <- !app_comm_cons.
    rewrite parse_value_array by done.
    rewrite app_comm_cons, <- Hhd, Hx by lia. csimpl.
    rewrite parse_elements_tokens by (done || lia). done.
  - intros [|fuel] rest Hfuel; [lia|].
    cbn [tokens] in *. rewrite map_fold_cons in *.
    change (fun kv : string * value => TStr kv.1 :: TColon :: tokens kv.2)
      with member_tokens in *.
    rewrite <- (list_to_map_to_list m) at 2.
    pose proof (NoDup_fst_map_to_list m) as Hnd.
    apply map_Forall_to_list in IH.
    destruct (map_to_list m) as [|[k x] l]; [done|].
    apply Forall_cons in IH as [Hx IH]. apply NoDup_cons in Hnd as [Hk Hnd].
    cbn [fmap list_fmap sep_by member_tokens fst snd app] in *.
    simpl in Hfuel, Hx. rewrite !length_app in Hfuel.
    assert (IH' : Forall (fun kv => parses kv.2) l).
    { eapply Forall_impl; [exact IH|]. by intros []. }
    rewrite <- !app_assoc, parse_value_object, Hx by lia. csimpl.
    rewrite parse_members_tokens by (done || lia).
    rewrite foldl_put by done.
    rewrite <- insert_union_r by by apply not_elem_of_list_to_map_1.
    by rewrite (right_id_L ∅ (∪)).
Qed.

Lemma bind_Ok {A B} (a : A) (k : A → outcome B) : Ok a ≫= k = k a.
Proof. done. Qed.

Theorem parse_stringify (v : value) : parse (stringify v) = Ok v.
Proof.
  unfold parse. destruct (lex_stringify v) as [Hlen Hlex].
  pose proof (Hlex EmptyString [] 0%nat I lexfrom_nil) as H.
  rewrite append_nil_r, app_nil_r in H.
  rewrite H by lia. rewrite bind_Ok.
  pose proof (parse_tokens v (S (length (tokens v))) [] (Nat.lt_succ_diag_r _)) as Hp.
  rewrite app_nil_r in Hp. rewrite Hp. done.
Qed.

End JSON_facts.

(** ** Persistence *)

Section Persistence.

Lemma array_of_inj (inv inv' : list item) : array_of inv = array_of inv' → inv = inv'.
Proof.
  unfold array_of. intros [= H]. revert inv' H.
  induction inv as [|i inv IH]; intros [|i' inv'] H; simplify_eq/=; [done|].
  f_equal. by apply IH.
Qed.

Lemma Full_load_never_throws (stored : option string) (e : exn) :
  Full.loadInventory stored ≠ Throw e.
Proof.
  unfold Full.loadInventory. destruct stored as [text|]; [|done].
  destruct (truthy (VStr text)); [|done].
  by destruct (JSON.parse text).
Qed.

Lemma Full_load_absent : Full.loadInventory None = Ok (VArr []).
Proof. done. Qed.

Lemma Full_load_malformed (text : string) (e : exn) :
  JSON.parse text = Throw e → Full.loadInventory (Some text) = Ok (VArr []).
Proof.
  intros H. unfold Full.loadInventory.
  destruct (truthy (VStr text)); [by rewrite H | done].
Qed.

Lemma Full_load_decoded (text : string) (v : value) :
  JSON.parse text = Ok v → Full.loadInventory (Some text) = Ok v.
Proof.
  intros H. unfold Full.loadInventory.
  destruct text as [|c text]; [done|]. simpl. by rewrite H.
Qed.

Lemma Scan_load_absent : Scan.loadInventory None = Ok (VArr []).
Proof. done. Qed.

Lemma Scan_load_malformed (text : string) (e : exn) :
  JSON.parse text = Throw e → Scan.loadInventory (Some text) = Throw e.
Proof. intros H. unfold Scan.loadInventory. simpl. by rewrite H. Qed.

Lemma Scan_load_decoded (text : string) (v : value) :
  JSON.parse text = Ok v → truthy v = true →
  Scan.loadInventory (Some text) = Ok v.
Proof.
  intros H Hv. unfold Scan.loadInventory.
  change (default "null" (Some text)) with text. rewrite H, bind_Ok.
  by rewrite Hv.
Qed.

(** C1 (fails in the scan-only variant).  With the text [[{] in the
    storage slot, [loadInventory] of the scan-only variant lets the
    SyntaxError of [JSON.parse] reach its caller; [loadInventory] of the
    CRUD variant catches it and yields the empty array. *)
Theorem Scan_load_malformed_throws :
  JSON.parse "[{" = Throw SyntaxError ∧
  Scan.loadInventory (Some "[{") = Throw SyntaxError ∧
  Full.loadInventory (Some "[{") = Ok (VArr []).
Proof. split; [|split]; vm_compute; reflexivity. Qed.

(** C9.  In both variants, what [loadInventory] reads back from the slot
    that [saveInventory] has written is the array of the saved items:
    the same items in the same order, each with the same properties. *)
Theorem save_load_roundtrip (fst : Full.state) (sst : Scan.state) :
  Full.loadInventory (Full.storage (Full.saveInventory fst))
    = Ok (array_of (Full.inventory fst)) ∧
  Scan.loadInventory (Scan.storage (Scan.saveInventory sst))
    = Ok (array_of (Scan.inventory sst)).
Proof.
  split.
  - apply Full_load_decoded, parse_stringify.
  - apply Scan_load_decoded; [apply parse_stringify | done].
Qed.

End Persistence.

(** ** Finding an item *)

Section Finding.

Lemma find_first_Some (k s : string) (l : list item) (i : nat) (x : item) :
  find_first (prop_is k s) l = Some (i, x) ↔ first_with k s l i x.
Proof.
  unfold find_first, first_with. rewrite list_find_Some. split.
  - intros (? & ? & H). split_and!; [done..|]. intros j y Hj Hlt.
    apply not_true_is_false. by eapply H.
  - intros (? & ? & H). split_and!; [done..|]. intros j y Hj Hlt.
    rewrite (H j y) by done. done.
Qed.

Lemma find_first_None (k s : string) (l : list item) :
  find_first (prop_is k s) l = None ↔ none_has k s l.
Proof.
  unfold find_first, none_has. rewrite list_find_None. apply Forall_iff.
  intros i. by rewrite not_true_iff_false.
Qed.

Lemma find_first_cases (k s : string) (l : list item) :
  none_has k s l ∨ ∃ i x, find_first (prop_is k s) l = Some (i, x).
Proof.
  destruct (find_first (prop_is k s) l) as [[i x]|] eqn:E.
  - right. by exists i, x.
  - left. by apply find_first_None.
Qed.

Lemma find_find_first (f : item → bool) (l : list item) :
  find f l = snd <$> find_first f l.
Proof. done. Qed.

End Finding.

(** ** update *)

Section Update.

Lemma merged_lookup (updates old : item) (ts : string) (k : string) :
  prop k (<["updatedAt" := VStr ts]> (updates ∪ old))
  = if decide (k = "updatedAt") then Some (VStr ts)
    else match prop k updates with
         | Some v => Some v
         | None => prop k old
         end.
Proof.
  unfold prop. case_decide as Hk.
  - subst. by rewrite lookup_insert_eq.
  - rewrite lookup_insert_ne by done. rewrite lookup_union.
    destruct (updates !! k), (old !! k); done.
Qed.

Lemma updateItem_absent (id : string) (updates : item) (ts : string) (st : Full.state) :
  none_has "id" id (Full.inventory st) → Full.updateItem id updates ts st = st.
Proof.
  intros H%find_first_None. unfold Full.updateItem. by rewrite H.
Qed.

Lemma updateItem_found (id : string) (updates : item) (ts : string)
    (st : Full.state) (index : nat) (old : item) :
  find_first (prop_is "id" id) (Full.inventory st) = Some (index, old) →
  Full.inventory (Full.updateItem id updates ts st)
  = <[index := <["updatedAt" := VStr ts]> (updates ∪ old)]> (Full.inventory st).
Proof. intros H. unfold Full.updateItem. by rewrite H. Qed.

(** C7.  [updateItem] leaves the state as it is when no item has the
    id.  Otherwise it replaces the first item with that id, at its own
    position, by the merge of the patch into it: [updatedAt] is the new
    timestamp, every other property is the patch's where the patch has
    it and the old one where not; no other position changes and the
    collection keeps its length. *)
Theorem updateItem_merges_in_place (id : string) (updates : item) (ts : string)
    (st : Full.state) :
  (none_has "id" id (Full.inventory st) →
   Full.updateItem id updates ts st = st) ∧
  (¬ none_has "id" id (Full.inventory st) →
   ∃ index old new,
     first_with "id" id (Full.inventory st) index old ∧
     Full.inventory (Full.updateItem id updates ts st)
       = <[index := new]> (Full.inventory st) ∧
     Full.inventory (Full.updateItem id updates ts st) !! index = Some new ∧
     prop "updatedAt" new = Some (VStr ts) ∧
     (∀ k, k ≠ "updatedAt" →
           prop k new = match prop k updates with
                        | Some v => Some v
                        | None => prop k old
                        end) ∧
     length (Full.inventory (Full.updateItem id updates ts st))
       = length (Full.inventory st) ∧
     (∀ j, j ≠ index →
           Full.inventory (Full.updateItem id updates ts st) !! j
           = Full.inventory st !! j)).
Proof.
  split; [apply updateItem_absent|]. intros Hsome.
  destruct (find_first_cases "id" id (Full.inventory st))
    as [Hnone | (index & old & Hfind)]; [done|].
  pose proof Hfind as Hfw%find_first_Some.
  pose proof Hfw as (Hidx & Hid & Hfirst).
  exists index, old, (<["updatedAt" := VStr ts]> (updates ∪ old)).
  rewrite (updateItem_found _ _ _ _ _ _ Hfind).
  split_and!; try done.
  - apply list_lookup_insert_eq. by eapply lookup_lt_Some.
  - rewrite merged_lookup. by case_decide.
  - intros k Hk. rewrite merged_lookup. by case_decide.
  - apply length_insert.
  - intros j Hj. by apply list_lookup_insert_ne.
Qed.

End Update.

(** ** Numbers *)

Section Numbers.

Lemma round53_exact (z : Z) : within_2_53 z → round53 z = z.
Proof.
  unfold within_2_53, round53. intros Hz.
  by rewrite (proj2 (Z.leb_le _ _) Hz).
Qed.

(** Within 2^53 the sum of the language is the sum of the integers. *)
Lemma Number_add_exact (a b : Z) :
  within_2_53 (a + b) → Number_add a b = a + b.
Proof. apply round53_exact. Qed.

Lemma round53_nonneg (z : Z) : 0 ≤ z → 0 ≤ round53 z.
Proof.
  intros Hz. unfold round53. destruct (Z.abs z <=? 2 ^ 53) eqn:E; [done|].
  apply Z.leb_gt in E. rewrite (Z.abs_eq z Hz) in *.
  assert (Hpos : 0 < z) by lia.
  rewrite (Z.sgn_pos z Hpos), Z.mul_1_l.
  assert (Hulp : 0 < 2 ^ (Z.log2 z - 52)).
  { apply Z.pow_pos_nonneg; [lia|].
    assert (53 ≤ Z.log2 z); [|lia].
    apply Z.log2_le_pow2; lia. }
  assert (Hm : 0 ≤ z / 2 ^ (Z.log2 z - 52)) by (apply Z.div_pos; lia).
  apply Z.mul_nonneg_nonneg; [|lia].
  repeat case_match; lia.
Qed.

Lemma Number_add_nonneg (a b : Z) : 0 ≤ a + b → 0 ≤ Number_add a b.
Proof. apply round53_nonneg. Qed.

(** The increment stops at 2^53. *)
Lemma Number_add_one_capped (q : Z) :
  0 ≤ q ≤ 2 ^ 53 → Number_add q 1 = Z.min (q + 1) (2 ^ 53).
Proof.
  intros Hq. destruct (decide (q = 2 ^ 53)) as [->|Hne].
  - vm_compute. reflexivity.
  - rewrite Number_add_exact by (unfold within_2_53; lia). lia.
Qed.

End Numbers.

(** ** adjustQuantity *)

Section Adjust.

Lemma updateQuantity_absent (id : string) (delta : Z) (ts : string) (st : Full.state) :
  none_has "id" id (Full.inventory st) → Full.updateQuantity id delta ts st = Ok st.
Proof.
  intros H%find_first_None. unfold Full.updateQuantity.
  by rewrite find_find_first, H.
Qed.

Lemma updateQuantity_found (id : string) (delta : Z) (ts : string)
    (st : Full.state) (index : nat) (i : item) (q : Z) :
  first_with "id" id (Full.inventory st) index i →
  prop "quantity" i = Some (VNum q) →
  Full.updateQuantity id delta ts st
  = Ok (Full.updateItem id
          {[ "quantity" := VNum (Z.max 0 (Number_add q delta)) ]} ts st).
Proof.
  intros H%find_first_Some Hq. unfold Full.updateQuantity.
  by rewrite find_find_first, H; simpl; rewrite Hq.
Qed.

Lemma changeQty_absent (id : string) (d : Z) (st : Scan.state) :
  none_has "id" id (Scan.inventory st) → Scan.changeQty id d st = Ok st.
Proof.
  intros H%find_first_None. unfold Scan.changeQty. by rewrite H.
Qed.

Lemma changeQty_found (id : string) (d : Z) (st : Scan.state)
    (index : nat) (i : item) (q : Z) :
  first_with "id" id (Scan.inventory st) index i →
  prop "quantity" i = Some (VNum q) →
  ∃ st', Scan.changeQty id d st = Ok st' ∧
    Scan.inventory st'
    = <[index := <["quantity" := VNum (Z.max 0 (Number_add q d))]> i]>
        (Scan.inventory st).
Proof.
  intros H%find_first_Some Hq. unfold Scan.changeQty. rewrite H, Hq.
  by eexists.
Qed.

(** C2, as amended.  In both variants the quantity adjustment leaves the
    state as it is when no item has the id.  Otherwise, where the first
    item with that id has the integer quantity q, it replaces that item
    in place by one whose quantity is the larger of 0 and the sum of q
    and delta as the language rounds it, which is never negative; this
    is max(0, q + delta) whenever q + delta is within 2^53 in magnitude.
    The other properties of the item are kept (the CRUD variant
    refreshes updatedAt). *)
Theorem adjust_quantity_clamps (id : string) (delta : Z) (ts : string)
    (fst : Full.state) (sst : Scan.state) :
  (none_has "id" id (Full.inventory fst) →
   Full.updateQuantity id delta ts fst = Ok fst) ∧
  (none_has "id" id (Scan.inventory sst) →
   Scan.changeQty id delta sst = Ok sst) ∧
  (∀ index i q,
     first_with "id" id (Full.inventory fst) index i →
     prop "quantity" i = Some (VNum q) →
     ∃ st' i',
       Full.updateQuantity id delta ts fst = Ok st' ∧
       Full.inventory st' = <[index := i']> (Full.inventory fst) ∧
       prop "quantity" i' = Some (VNum (Z.max 0 (Number_add q delta))) ∧
       0 ≤ Z.max 0 (Number_add q delta) ∧
       (within_2_53 (q + delta) →
        prop "quantity" i' = Some (VNum (Z.max 0 (q + delta)))) ∧
       prop "updatedAt" i' = Some (VStr ts) ∧
       ∀ k, k ≠ "quantity" → k ≠ "updatedAt" → prop k i' = prop k i) ∧
  (∀ index i q,
     first_with "id" id (Scan.inventory sst) index i →
     prop "quantity" i = Some (VNum q) →
     ∃ st' i',
       Scan.changeQty id delta sst = Ok st' ∧
       Scan.inventory st' = <[index := i']> (Scan.inventory sst) ∧
       prop "quantity" i' = Some (VNum (Z.max 0 (Number_add q delta))) ∧
       0 ≤ Z.max 0 (Number_add q delta) ∧
       (within_2_53 (q + delta) →
        prop "quantity" i' = Some (VNum (Z.max 0 (q + delta)))) ∧
       ∀ k, k ≠ "quantity" → prop k i' = prop k i).
Proof.
  split_and!.
  - apply updateQuantity_absent.
  - apply changeQty_absent.
  - intros index i q Hfw Hq.
    eexists _, _. split; [by eapply updateQuantity_found|].
    split; [by apply updateItem_found, find_first_Some|].
    assert (Hnew : prop "quantity"
                     (<["updatedAt" := VStr ts]>
                        ({[ "quantity" := VNum (Z.max 0 (Number_add q delta)) ]}
                         ∪ i))
                   = Some (VNum (Z.max 0 (Number_add q delta)))).
    { unfold prop. rewrite lookup_insert_ne by done.
      by rewrite lookup_union, lookup_singleton_eq, union_Some_l. }
    split_and!.
    + exact Hnew.
    + lia.
    + intros Hexact. by rewrite Hnew, (Number_add_exact q delta Hexact).
    + unfold prop. by rewrite lookup_insert_eq.
    + intros k Hk Hk'. unfold prop. rewrite lookup_insert_ne by done.
      rewrite lookup_union, lookup_singleton_ne by done.
      by destruct (i !! k).
  - intros index i q Hfw Hq.
    destruct (changeQty_found id delta sst index i q Hfw Hq) as (st' & Hst & Hinv).
    exists st', (<["quantity" := VNum (Z.max 0 (Number_add q delta))]> i).
    unfold prop. split_and!; [done | done | | lia | |].
    + by rewrite lookup_insert_eq.
    + intros Hexact.
      by rewrite lookup_insert_eq, (Number_add_exact q delta Hexact).
    + intros k Hk. by rewrite lookup_insert_ne.
Qed.

End Adjust.

(** ** Runs of actions *)

Section Runs.

(** An invariant that may mention the actions still to come. *)
Lemma Full_run_all_invariant (I : Full.state → list Full.action → Prop) :
  (∀ a rest st st', I st (a :: rest) → Full.run a st = Ok st' → I st' rest) →
  ∀ acts st st', I st acts → Full.run_all acts st = Ok st' → I st' [].
Proof.
  intros Hstep acts. induction acts as [|a rest IH]; intros st st' HI Hrun.
  - by simplify_eq/=.
  - simpl in Hrun. destruct (Full.run a st) as [st1| |] eqn:Ha; try done.
    rewrite bind_Ok in Hrun. eapply IH; [|done]. by eapply Hstep.
Qed.

Lemma Scan_run_all_invariant (I : Scan.state → list Scan.action → Prop) :
  (∀ a rest st st', I st (a :: rest) → Scan.run a st = Ok st' → I st' rest) →
  ∀ acts st st', I st acts → Scan.run_all acts st = Ok st' → I st' [].
Proof.
  intros Hstep acts. induction acts as [|a rest IH]; intros st st' HI Hrun.
  - by simplify_eq/=.
  - simpl in Hrun. destruct (Scan.run a st) as [st1| |] eqn:Ha; try done.
    rewrite bind_Ok in Hrun. eapply IH; [|done]. by eapply Hstep.
Qed.

End Runs.

(** ** Quantities are never negative *)

Section Quantities.

Lemma nonneg_quantity_ext (i i' : item) :
  prop "quantity" i' = prop "quantity" i →
  nonneg_quantity i = true → nonneg_quantity i' = true.
Proof. unfold nonneg_quantity. by intros ->. Qed.

Lemma addItem_nonneg d now rnd created updated st :
  nonneg_quantity d = true → all_nonneg (Full.inventory st) →
  all_nonneg (Full.inventory (Full.addItem d now rnd created updated st)).
Proof.
  intros Hd Hinv. simpl. apply Forall_cons. split; [|done].
  eapply nonneg_quantity_ext; [|exact Hd].
  unfold prop. by rewrite !lookup_insert_ne by done.
Qed.

Lemma updateItem_nonneg id ups ts st :
  Full.quantity_ok (Full.Update id ups ts) = true →
  all_nonneg (Full.inventory st) →
  all_nonneg (Full.inventory (Full.updateItem id ups ts st)).
Proof.
  intros Hok Hinv. unfold Full.updateItem.
  destruct (find_first _ _) as [[index old]|] eqn:Hfind; [|done].
  apply find_first_Some in Hfind as (Hidx & _). simpl.
  apply Forall_insert; [done|].
  assert (Hold : nonneg_quantity old = true).
  { eapply Forall_forall in Hinv; [done|]. by eapply list_elem_of_lookup_2. }
  unfold nonneg_quantity in *. rewrite merged_lookup.
  case_decide; [done|]. simpl in Hok.
  by destruct (prop "quantity" ups) as [[]|].
Qed.

Lemma updateQuantity_nonneg id delta ts st st' :
  Full.updateQuantity id delta ts st = Ok st' →
  all_nonneg (Full.inventory st) → all_nonneg (Full.inventory st').
Proof.
  unfold Full.updateQuantity. intros Hrun Hinv.
  destruct (find _ _) as [i|]; [|by simplify_eq].
  destruct (prop "quantity" i) as [[]|]; try done. simplify_eq.
  apply updateItem_nonneg; [|done]. simpl.
  unfold prop. rewrite lookup_singleton_eq. lia.
Qed.

Lemma filter_nonneg (P : item → Prop) `{!∀ i, Decision (P i)} (inv : list item) :
  all_nonneg inv → all_nonneg (filter P inv).
Proof.
  unfold all_nonneg. rewrite !Forall_forall. intros Hall i Hi.
  apply list_elem_of_filter in Hi as [_ Hi]. by apply Hall.
Qed.

Lemma deleteItem_nonneg id st :
  all_nonneg (Full.inventory st) →
  all_nonneg (Full.inventory (Full.deleteItem id st)).
Proof.
  intros Hinv. unfold Full.deleteItem. destruct (find _ _); [|done].
  simpl. by apply filter_nonneg.
Qed.

Lemma Full_run_nonneg a st st' :
  Full.quantity_ok a = true → Full.run a st = Ok st' →
  all_nonneg (Full.inventory st) → all_nonneg (Full.inventory st').
Proof.
  intros Hok Hrun Hinv. destruct a; simpl in Hrun; simplify_eq.
  - by apply addItem_nonneg.
  - by apply updateItem_nonneg.
  - by eapply updateQuantity_nonneg.
  - by apply deleteItem_nonneg.
Qed.

Lemma changeQty_nonneg id d st st' :
  Scan.changeQty id d st = Ok st' →
  all_nonneg (Scan.inventory st) → all_nonneg (Scan.inventory st').
Proof.
  unfold Scan.changeQty. intros Hrun Hinv.
  destruct (find_first _ _) as [[index i]|]; [|by simplify_eq].
  destruct (prop "quantity" i) as [[]|]; try done. simplify_eq. simpl.
  apply Forall_insert; [done|].
  unfold nonneg_quantity, prop. rewrite lookup_insert_eq. lia.
Qed.

Lemma onBarcodeDetected_nonneg barcode now rnd st st' :
  Scan.onBarcodeDetected barcode now rnd st = Ok st' →
  all_nonneg (Scan.inventory st) → all_nonneg (Scan.inventory st').
Proof.
  unfold Scan.onBarcodeDetected. intros Hrun Hinv.
  destruct (Scan.scanCooldown st); [by simplify_eq|].
  destruct (find_first _ _) as [[index i]|] eqn:Hfind.
  - apply find_first_Some in Hfind as (Hidx & _).
    assert (Hi : nonneg_quantity i = true).
    { eapply Forall_forall in Hinv; [done|]. by eapply list_elem_of_lookup_2. }
    unfold nonneg_quantity in Hi.
    destruct (prop "quantity" i) as [[]|]; try done. simplify_eq/=.
    apply Forall_insert; [done|].
    unfold nonneg_quantity, prop. rewrite lookup_insert_eq.
    apply Z.leb_le in Hi. apply Z.leb_le, Number_add_nonneg. lia.
  - simplify_eq/=. by apply Forall_cons.
Qed.

Lemma Scan_run_nonneg a st st' :
  Scan.run a st = Ok st' →
  all_nonneg (Scan.inventory st) → all_nonneg (Scan.inventory st').
Proof.
  intros Hrun Hinv. destruct a; simpl in Hrun; simplify_eq; try done.
  - by eapply onBarcodeDetected_nonneg.
  - by eapply changeQty_nonneg.
  - simpl. by apply filter_nonneg.
Qed.

Lemma nonneg_quantity_number (inv : list item) (i : item) :
  all_nonneg inv → i ∈ inv → ∃ q, prop "quantity" i = Some (VNum q) ∧ 0 ≤ q.
Proof.
  intros Hinv Hi. eapply Forall_forall in Hinv; [|done].
  unfold nonneg_quantity in Hinv.
  destruct (prop "quantity" i) as [[]|]; try done. eexists. split; [done|lia].
Qed.

Lemma find_first_elem (f : item → bool) (inv : list item) (index : nat) (i : item) :
  find_first f inv = Some (index, i) → i ∈ inv.
Proof.
  unfold find_first. intros (Hidx & _)%list_find_Some.
  by eapply list_elem_of_lookup_2.
Qed.

(** On a collection with integer quantities no operation leaves the
    embedded fragment. *)
Lemma Full_run_completes (a : Full.action) (st : Full.state) :
  all_nonneg (Full.inventory st) → ∃ st', Full.run a st = Ok st'.
Proof.
  intros Hinv. destruct a; simpl; try by eexists.
  unfold Full.updateQuantity, find.
  destruct (find_first _ _) as [[index i]|] eqn:Hfind; simpl; [|by eexists].
  apply find_first_elem in Hfind.
  destruct (nonneg_quantity_number _ _ Hinv Hfind) as (q & -> & _).
  by eexists.
Qed.

Lemma Scan_run_completes (a : Scan.action) (st : Scan.state) :
  all_nonneg (Scan.inventory st) → ∃ st', Scan.run a st = Ok st'.
Proof.
  intros Hinv. destruct a; simpl; try by eexists.
  - unfold Scan.onBarcodeDetected. destruct (Scan.scanCooldown st); [by eexists|].
    destruct (find_first _ _) as [[index i]|] eqn:Hfind; simpl; [|by eexists].
    apply find_first_elem in Hfind.
    destruct (nonneg_quantity_number _ _ Hinv Hfind) as (q & -> & _).
    by eexists.
  - unfold Scan.changeQty.
    destruct (find_first _ _) as [[index i]|] eqn:Hfind; simpl; [|by eexists].
    apply find_first_elem in Hfind.
    destruct (nonneg_quantity_number _ _ Hinv Hfind) as (q & -> & _).
    by eexists.
Qed.

Lemma Full_run_all_nonneg (acts : list Full.action) (st : Full.state) :
  Forall (fun a => Full.quantity_ok a = true) acts →
  all_nonneg (Full.inventory st) →
  ∃ st', Full.run_all acts st = Ok st' ∧ all_nonneg (Full.inventory st').
Proof.
  intros Hok. revert st. induction Hok as [|a acts Ha _ IH]; intros st Hinv.
  - by exists st.
  - destruct (Full_run_completes a st Hinv) as [st1 Hrun].
    destruct (IH st1) as (st' & Hrest & Hinv'); [by eapply Full_run_nonneg|].
    exists st'. split; [|done]. simpl. by rewrite Hrun.
Qed.

Lemma Scan_run_all_nonneg (acts : list Scan.action) (st : Scan.state) :
  all_nonneg (Scan.inventory st) →
  ∃ st', Scan.run_all acts st = Ok st' ∧ all_nonneg (Scan.inventory st').
Proof.
  revert st. induction acts as [|a acts IH]; intros st Hinv.
  - by exists st.
  - destruct (Scan_run_completes a st Hinv) as [st1 Hrun].
    destruct (IH st1) as (st' & Hrest & Hinv'); [by eapply Scan_run_nonneg|].
    exists st'. split; [|done]. simpl. by rewrite Hrun.
Qed.

(** C3, as amended.  From the empty collection, every run of the store's
    operations in which each draft carries an integer quantity that is
    not negative, and each patch carries such a quantity or none, ends
    (it does not leave the embedded fragment) in a collection where
    every item has an integer quantity that is not negative; every run
    of the scan-only variant's operations does. *)
Theorem quantities_never_negative
    (facts : list Full.action) (sacts : list Scan.action)
    (Hok : Forall (fun a => Full.quantity_ok a = true) facts) :
  ∃ fst sst,
    Full.run_all facts Full.init = Ok fst ∧
    Scan.run_all sacts Scan.init = Ok sst ∧
    Forall (fun i => nonneg_quantity i = true) (Full.inventory fst) ∧
    Forall (fun i => nonneg_quantity i = true) (Scan.inventory sst).
Proof.
  destruct (Full_run_all_nonneg facts Full.init Hok) as (fst & Hf & Hfinv);
    [constructor|].
  destruct (Scan_run_all_nonneg sacts Scan.init) as (sst & Hs & Hsinv);
    [constructor|].
  by exists fst, sst.
Qed.

End Quantities.

(** ** Ids *)

Section Ids.

Lemma ids_insert_same (inv : list item) (index : nat) (old new : item) :
  inv !! index = Some old → prop "id" new = prop "id" old →
  ids (<[index := new]> inv) = ids inv.
Proof.
  intros Hidx Hid. unfold ids. rewrite list_fmap_insert, Hid.
  apply list_insert_id. by rewrite list_lookup_fmap, Hidx.
Qed.

Lemma id_apart_ext (future : list string) (i i' : item) :
  prop "id" i' = prop "id" i → id_apart future i → id_apart future i'.
Proof. unfold id_apart. by intros ->. Qed.

Lemma id_apart_weaken (future future' : list string) (i : item) :
  (∀ g, g ∈ future' → g ∈ future) → id_apart future i → id_apart future' i.
Proof. intros Hsub (g & Hg & Hnot). exists g. split; [done|]. auto. Qed.

Lemma ids_filter_NoDup (P : item → Prop) `{!∀ i, Decision (P i)} (inv : list item) :
  NoDup (ids inv) → NoDup (ids (filter P inv)).
Proof.
  intros Hnd. eapply sublist_NoDup; [exact Hnd|].
  unfold ids. apply fmap_sublist, sublist_filter.
Qed.

Lemma ids_cons_NoDup (g : string) (future : list string) (new : item) (inv : list item) :
  prop "id" new = Some (VStr g) →
  Forall (id_apart (g :: future)) inv → NoDup (ids inv) →
  NoDup (ids (new :: inv)).
Proof.
  intros Hnew Hall Hnd. unfold ids. rewrite fmap_cons, Hnew.
  apply NoDup_cons. split; [|done].
  intros (i & Hi & Hin)%list_elem_of_fmap.
  eapply Forall_forall in Hall as (g' & Hg' & Hnot); [|done].
  rewrite Hg' in Hi. simplify_eq. apply Hnot. by left.
Qed.

(** What [updateItem] does to the ids when the patch has none. *)
Lemma updateItem_ids (id : string) (ups : item) (ts : string) (st : Full.state) :
  prop "id" ups = None →
  ids (Full.inventory (Full.updateItem id ups ts st)) = ids (Full.inventory st).
Proof.
  intros Hups. unfold Full.updateItem.
  destruct (find_first _ _) as [[index old]|] eqn:Hfind; [|done].
  apply find_first_Some in Hfind as (Hidx & _). simpl.
  eapply ids_insert_same; [done|].
  rewrite merged_lookup. case_decide; [done|]. by rewrite Hups.
Qed.

(** The patches that the form makes have no id. *)
Lemma itemData_keeps_id (id name sku category : string) (quantity : Z)
    (unit notes ts : string) :
  Full.keeps_id
    (Full.Update id (Full.itemData name sku category quantity unit notes) ts)
  = true.
Proof. done. Qed.

Lemma updateQuantity_ids (id : string) (delta : Z) (ts : string) (st st' : Full.state) :
  Full.updateQuantity id delta ts st = Ok st' →
  ids (Full.inventory st') = ids (Full.inventory st).
Proof.
  unfold Full.updateQuantity. intros Hrun.
  destruct (find _ _) as [i|]; [|by simplify_eq].
  destruct (prop "quantity" i) as [[]|]; try done. simplify_eq.
  by apply updateItem_ids.
Qed.

Lemma changeQty_ids (id : string) (d : Z) (st st' : Scan.state) :
  Scan.changeQty id d st = Ok st' →
  ids (Scan.inventory st') = ids (Scan.inventory st).
Proof.
  unfold Scan.changeQty. intros Hrun.
  destruct (find_first _ _) as [[index i]|] eqn:Hfind; [|by simplify_eq].
  apply find_first_Some in Hfind as (Hidx & _).
  destruct (prop "quantity" i) as [[]|]; try done. simplify_eq/=.
  eapply ids_insert_same; [done|]. unfold prop. by rewrite lookup_insert_ne.
Qed.

(** The ids are the image of the items: a property of all ids that only
    depends on the id carries over. *)
Lemma Forall_ids_eq (P : item → Prop) (inv inv' : list item) :
  (∀ i i', prop "id" i' = prop "id" i → P i → P i') →
  ids inv' = ids inv → Forall P inv → Forall P inv'.
Proof.
  intros Hext. revert inv'.
  induction inv as [|i inv IH]; intros [|i' inv'] Hids Hall;
    simplify_eq/=; [done|].
  apply Forall_cons in Hall as [Hi Hall].
  apply Forall_cons. split; [by eapply Hext | by apply IH].
Qed.

Lemma ids_ok_same (future : list string) (inv inv' : list item) :
  ids inv' = ids inv → ids_ok future inv → ids_ok future inv'.
Proof.
  intros Hids [Hnd Hall]. split; [by rewrite Hids|].
  eapply Forall_ids_eq; [|done..]. intros i i'. apply id_apart_ext.
Qed.

Lemma ids_ok_filter (P : item → Prop) `{!∀ i, Decision (P i)}
    (future : list string) (inv : list item) :
  ids_ok future inv → ids_ok future (filter P inv).
Proof.
  intros [Hnd Hall]. split; [by apply ids_filter_NoDup|].
  rewrite Forall_forall in Hall |- *. intros i Hi.
  apply list_elem_of_filter in Hi as [_ Hi]. by apply Hall.
Qed.

Lemma ids_ok_cons (g : string) (future : list string) (new : item) (inv : list item) :
  prop "id" new = Some (VStr g) → g ∉ future →
  ids_ok (g :: future) inv → ids_ok future (new :: inv).
Proof.
  intros Hnew Hg [Hnd Hall]. split; [by eapply ids_cons_NoDup|].
  apply Forall_cons. split; [by exists g|].
  eapply Forall_impl; [done|]. intros i. apply id_apart_weaken.
  intros g' Hg'. by right.
Qed.

Lemma Full_run_ids (a : Full.action) (rest : list Full.action) (st st' : Full.state) :
  Full.keeps_id a = true → NoDup (Full.generated (a :: rest)) →
  Full.run a st = Ok st' →
  ids_ok (Full.generated (a :: rest)) (Full.inventory st) →
  ids_ok (Full.generated rest) (Full.inventory st').
Proof.
  intros Hkeep Hgen Hrun Hok. destruct a; simpl in *; simplify_eq.
  - apply NoDup_cons in Hgen as [Hg _]. simpl.
    eapply ids_ok_cons; [|done..]. unfold prop.
    rewrite !lookup_insert_ne by done. by rewrite lookup_insert_eq.
  - eapply ids_ok_same; [|done]. apply updateItem_ids.
    by destruct (prop "id" updates).
  - eapply ids_ok_same; [|done]. by eapply updateQuantity_ids.
  - unfold Full.deleteItem. destruct (find _ _); [|done].
    simpl. by apply ids_ok_filter.
Qed.

Lemma onBarcodeDetected_ids (barcode : string) (now : Z) (rnd : string)
    (future : list string) (st st' : Scan.state) :
  Scan.generateId now rnd ∉ future →
  Scan.onBarcodeDetected barcode now rnd st = Ok st' →
  ids_ok (Scan.generateId now rnd :: future) (Scan.inventory st) →
  ids_ok future (Scan.inventory st').
Proof.
  unfold Scan.onBarcodeDetected. intros Hg Hrun Hok.
  assert (Hweak : ids_ok future (Scan.inventory st)).
  { destruct Hok as [Hnd Hall]. split; [done|].
    eapply Forall_impl; [done|]. intros i. apply id_apart_weaken.
    intros g' Hg'. by right. }
  destruct (Scan.scanCooldown st); [by simplify_eq|].
  destruct (find_first _ _) as [[index i]|] eqn:Hfind.
  - apply find_first_Some in Hfind as (Hidx & _).
    destruct (prop "quantity" i) as [[]|]; try done. simplify_eq/=.
    eapply ids_ok_same; [|done].
    eapply ids_insert_same; [done|]. unfold prop. by rewrite lookup_insert_ne.
  - simplify_eq/=. by eapply ids_ok_cons.
Qed.

Lemma Scan_run_ids (a : Scan.action) (rest : list Scan.action) (st st' : Scan.state) :
  NoDup (Scan.generated (a :: rest)) →
  Scan.run a st = Ok st' →
  ids_ok (Scan.generated (a :: rest)) (Scan.inventory st) →
  ids_ok (Scan.generated rest) (Scan.inventory st').
Proof.
  intros Hgen Hrun Hok. destruct a; simpl in *; simplify_eq; try done.
  - apply NoDup_cons in Hgen as [Hg _]. by eapply onBarcodeDetected_ids.
  - eapply ids_ok_same; [|done]. by eapply changeQty_ids.
  - simpl. by apply ids_ok_filter.
Qed.

Lemma generated_tail_NoDup_Full (a : Full.action) (rest : list Full.action) :
  NoDup (Full.generated (a :: rest)) → NoDup (Full.generated rest).
Proof. destruct a; simpl; [|done..]. by intros [_ ?]%NoDup_cons. Qed.

Lemma generated_tail_NoDup_Scan (a : Scan.action) (rest : list Scan.action) :
  NoDup (Scan.generated (a :: rest)) → NoDup (Scan.generated rest).
Proof. destruct a; simpl; [|done..]. by intros [_ ?]%NoDup_cons. Qed.

(** C8, as amended.  From the empty collection, every run in which no
    two additions generate the same id string and no patch has the
    property id ends in a collection whose items have pairwise distinct
    ids; the same holds for the runs of the scan-only variant in which no
    two scans generate the same id string.  A patch without the property
    id and a quantity adjustment leave the id of every item as it is. *)
Theorem ids_stay_distinct
    (facts : list Full.action) (fst : Full.state)
    (sacts : list Scan.action) (sst : Scan.state)
    (Hgen : NoDup (Full.generated facts))
    (Hkeep : Forall (fun a => Full.keeps_id a = true) facts)
    (Hfull : Full.run_all facts Full.init = Ok fst)
    (Hsgen : NoDup (Scan.generated sacts))
    (Hscan : Scan.run_all sacts Scan.init = Ok sst) :
  NoDup (ids (Full.inventory fst)) ∧
  NoDup (ids (Scan.inventory sst)) ∧
  (∀ id ups ts st, prop "id" ups = None →
     ids (Full.inventory (Full.updateItem id ups ts st))
     = ids (Full.inventory st)) ∧
  (∀ id delta ts st st', Full.updateQuantity id delta ts st = Ok st' →
     ids (Full.inventory st') = ids (Full.inventory st)) ∧
  (∀ id d st st', Scan.changeQty id d st = Ok st' →
     ids (Scan.inventory st') = ids (Scan.inventory st)).
Proof.
  split_and!.
  - eapply (Full_run_all_invariant
              (fun st rest => NoDup (Full.generated rest) ∧
                              Forall (fun a => Full.keeps_id a = true) rest ∧
                              ids_ok (Full.generated rest) (Full.inventory st))
              _ facts Full.init fst); [|done].
    split_and!; [done | done | by split; constructor].
  - eapply (Scan_run_all_invariant
              (fun st rest => NoDup (Scan.generated rest) ∧
                              ids_ok (Scan.generated rest) (Scan.inventory st))
              _ sacts Scan.init sst); [|done].
    split; [done | by split; constructor].
  - intros. by apply updateItem_ids.
  - intros. by eapply updateQuantity_ids.
  - intros. by eapply changeQty_ids.
  Unshelve.
  + intros a rest st st' (Hg & [Ha Hrest]%Forall_cons & Hok) Hrun.
    split_and!; [by eapply generated_tail_NoDup_Full | done |].
    by eapply Full_run_ids.
  + intros a rest st st' (Hg & Hok) Hrun.
    split; [by eapply generated_tail_NoDup_Scan | by eapply Scan_run_ids].
Qed.

End Ids.

(** ** Generated ids *)

Section Generated.

Lemma string_of_uint_free (u : uint) : free_of "_" (NilEmpty.string_of_uint u).
Proof. induction u; simpl; done. Qed.

Lemma show_Z_free (z : Z) : free_of "_" (show_Z z).
Proof.
  destruct z; simpl; try split; try done; apply string_of_uint_free.
Qed.

Lemma show_N_inj (n n' : N) : show_N n = show_N n' → n = n'.
Proof.
  unfold show_N. intros H. apply DecimalN.Unsigned.to_uint_inj.
  apply (f_equal NilEmpty.uint_of_string) in H.
  rewrite !NilEmpty.usu in H. by simplify_eq.
Qed.

Lemma show_Z_inj (z z' : Z) : show_Z z = show_Z z' → z = z'.
Proof.
  assert (Hcross : ∀ n p, show_N n ≠ String (ch 45) (show_N (Npos p))).
  { intros n p H. destruct (show_N_head n) as (c & r & Hn & [d Hd]).
    rewrite Hn in H. by simplify_eq. }
  destruct z as [|p|p], z' as [|p'|p']; simpl; intros H;
    try (by apply show_N_inj in H; simplify_eq);
    try (by apply Hcross in H);
    try (by symmetry in H; apply Hcross in H).
  simplify_eq. apply show_N_inj in H. by simplify_eq.
Qed.

(** Two texts that an underscore ends are equal up to it. *)
Lemma split_at_underscore (a b x y : string) :
  free_of "_" a → free_of "_" b →
  a +:+ String "_" x = b +:+ String "_" y → a = b ∧ x = y.
Proof.
  revert b. induction a as [|c a IH]; intros [|c' b] Ha Hb H;
    simpl in *; simplify_eq.
  - done.
  - by destruct Hb.
  - by destruct Ha.
  - destruct Ha as [_ Ha], Hb as [_ Hb].
    destruct (IH b Ha Hb) as [-> ->]; done.
Qed.

Lemma item_id_inj (z z' : Z) (x y : string) :
  "item_" +:+ show_Z z +:+ "_" +:+ x = "item_" +:+ show_Z z' +:+ "_" +:+ y →
  z = z' ∧ x = y.
Proof.
  intros H. simplify_eq/=.
  apply split_at_underscore in H as [Hz ->]; try apply show_Z_free.
  by apply show_Z_inj in Hz.
Qed.

(** Two generated ids are equal only if they come from the same clock
    reading and the same random suffix. *)
Lemma Full_generateId_inj (now now' : Z) (rnd rnd' : string) :
  Full.generateId now rnd = Full.generateId now' rnd' →
  now = now' ∧ substring 2 9 rnd = substring 2 9 rnd'.
Proof. apply item_id_inj. Qed.

Lemma Scan_generateId_inj (now now' : Z) (rnd rnd' : string) :
  Scan.generateId now rnd = Scan.generateId now' rnd' →
  now = now' ∧ substring 2 6 rnd = substring 2 6 rnd'.
Proof. apply item_id_inj. Qed.

Lemma none_has_differs (k s : string) (inv : list item) :
  none_has k s inv → Forall (fun i => prop k i ≠ Some (VStr s)) inv.
Proof.
  intros H. eapply Forall_impl; [exact H|]. intros i Hi Heq. unfold prop_is in Hi.
  rewrite Heq in Hi. by rewrite String.eqb_refl in Hi.
Qed.

End Generated.

(** ** add *)

Section Add.


End Add.

(** ** Barcode scan *)

Section Detect.

Lemma autoProduct_fields (barcode : string) (now : Z) (rnd : string) :
  Scan.autoProduct barcode now rnd
  = list_to_map [("id", VStr (Scan.generateId now rnd));
                 ("name", VStr "Auto Product");
                 ("sku", VStr barcode);
                 ("category", VStr "General");
                 ("quantity", VNum 1);
                 ("unit", VStr "pcs")].
Proof. done. Qed.

(** C10, as amended.  Outside the cooldown, a scan of a barcode that is
    the sku of some item replaces the first such item, in place, by the
    same item with its quantity q plus one as the language rounds the
    sum, which is q + 1 whenever q + 1 is within 2^53 in magnitude, and
    changes nothing else; a scan of an unknown barcode puts at the front
    an item with exactly the properties id (the generated string), name
    Auto Product, sku (the barcode), category General, quantity 1 and
    unit pcs.  The id differs from every id in the collection provided
    no item has the generated string as its id already. *)
Theorem onBarcodeDetected_adds_or_increments (barcode : string) (now : Z)
    (rnd : string) (st : Scan.state)
    (Hcool : Scan.scanCooldown st = false) :
  (∀ index i q,
     first_with "sku" barcode (Scan.inventory st) index i →
     prop "quantity" i = Some (VNum q) →
     ∃ st',
       Scan.onBarcodeDetected barcode now rnd st = Ok st' ∧
       Scan.inventory st'
         = <[index := <["quantity" := VNum (Number_add q 1)]> i]>
             (Scan.inventory st) ∧
       (within_2_53 (q + 1) →
        Scan.inventory st'
          = <[index := <["quantity" := VNum (q + 1)]> i]> (Scan.inventory st)) ∧
       (∀ j, j ≠ index → Scan.inventory st' !! j = Scan.inventory st !! j) ∧
       length (Scan.inventory st') = length (Scan.inventory st)) ∧
  (none_has "sku" barcode (Scan.inventory st) →
     ∃ st' new,
       Scan.onBarcodeDetected barcode now rnd st = Ok st' ∧
       Scan.inventory st' = new :: Scan.inventory st ∧
       new = list_to_map [("id", VStr (Scan.generateId now rnd));
                          ("name", VStr "Auto Product");
                          ("sku", VStr barcode);
                          ("category", VStr "General");
                          ("quantity", VNum 1);
                          ("unit", VStr "pcs")] ∧
       prop "createdAt" new = None ∧ prop "updatedAt" new = None ∧
       (none_has "id" (Scan.generateId now rnd) (Scan.inventory st) →
        Forall (fun i => prop "id" i ≠ prop "id" new) (Scan.inventory st))).
Proof.
  unfold Scan.onBarcodeDetected. rewrite Hcool. split.
  - intros index i q Hfw%find_first_Some Hq. rewrite Hfw, Hq.
    eexists. split; [reflexivity|]. simpl. split_and!; [done | | |].
    + intros Hexact. by rewrite (Number_add_exact q 1 Hexact).
    + intros j Hj. by apply list_lookup_insert_ne.
    + apply length_insert.
  - intros Hnone%find_first_None. rewrite Hnone.
    eexists _, _. split; [reflexivity|]. simpl.
    split_and!; [done | apply autoProduct_fields | done | done |].
    intros Hfree. by apply none_has_differs.
Qed.

Lemma onBarcodeDetected_cooldown (barcode : string) (now : Z) (rnd : string)
    (st : Scan.state) :
  Scan.scanCooldown st = true →
  Scan.onBarcodeDetected barcode now rnd st = Ok st.
Proof. intros H. unfold Scan.onBarcodeDetected. by rewrite H. Qed.

End Detect.

(** ** Categories *)

Section Categories.

Lemma foldl_Set_add (l acc : list string) :
  NoDup acc →
  NoDup (foldl Set_add acc l) ∧
  ∀ x, x ∈ foldl Set_add acc l ↔ x ∈ acc ∨ x ∈ l.
Proof.
  revert acc. induction l as [|y l IH]; intros acc Hacc; simpl.
  - split; [done|]. intros x. rewrite elem_of_nil. tauto.
  - unfold Set_add at 2 4. case_bool_decide as Hy.
    + destruct (IH acc Hacc) as [Hnd Hin]. split; [done|].
      intros x. rewrite Hin, elem_of_cons. split; [tauto|].
      intros [?|[->|?]]; auto.
    + assert (Hacc' : NoDup (acc ++ [y])).
      { apply NoDup_app. split_and!; [done | | apply NoDup_singleton].
        intros x Hx ->%list_elem_of_singleton. done. }
      destruct (IH _ Hacc') as [Hnd Hin]. split; [done|].
      intros x. rewrite Hin, elem_of_app, list_elem_of_singleton, elem_of_cons.
      tauto.
Qed.

Lemma Set_values_spec (l : list string) :
  NoDup (Set_values l) ∧ ∀ x, x ∈ Set_values l ↔ x ∈ l.
Proof.
  destruct (foldl_Set_add l [] (NoDup_nil_2)) as [Hnd Hin].
  split; [done|]. intros x. rewrite Hin, elem_of_nil. tauto.
Qed.

(** What the CRUD variant's [getCategories] returns for string
    categories: the categories of the items, each once, ascending. *)
Lemma Full_getCategories_sorted (st : Full.state) (cs : list string) :
  categories_of (Full.inventory st) = Ok cs →
  ∃ out, Full.getCategories st = Ok out ∧
    NoDup out ∧ StronglySorted String.le out ∧ ∀ c, c ∈ out ↔ c ∈ cs.
Proof.
  intros Hcs. unfold Full.getCategories. rewrite Hcs, bind_Ok.
  eexists. split; [reflexivity|].
  destruct (Set_values_spec cs) as [Hnd Hin].
  unfold sort. split_and!.
  - by rewrite merge_sort_Permutation.
  - apply StronglySorted_merge_sort; apply _.
  - intros c. by rewrite merge_sort_Permutation.
Qed.

Lemma Scan_getCategories_distinct (st : Scan.state) (cs : list string) :
  categories_of (Scan.inventory st) = Ok cs →
  ∃ out, Scan.getCategories st = Ok out ∧
    NoDup out ∧ ∀ c, c ∈ out ↔ c ∈ cs.
Proof.
  intros Hcs. unfold Scan.getCategories. rewrite Hcs, bind_Ok.
  eexists. split; [reflexivity|]. apply Set_values_spec.
Qed.

(** C4 (fails in the scan-only variant).  On the collection that the
    CRUD variant has saved after adding a General item and then a Tools
    item, [getCategories] of the scan-only variant returns Tools before
    General, which is not ascending; [getCategories] of the CRUD variant
    returns General before Tools. *)
Theorem Scan_getCategories_unsorted :
  Scan.loadInventory (Full.storage two_items)
    = Ok (array_of (Scan.inventory scan_two_items)) ∧
  Scan.getCategories scan_two_items = Ok ["Tools"; "General"] ∧
  ¬ Sorted String.le ["Tools"; "General"] ∧
  Full.getCategories two_items = Ok ["General"; "Tools"].
Proof.
  split; [vm_compute; reflexivity|].
  split; [vm_compute; reflexivity|].
  split; [|vm_compute; reflexivity].
  intros Hs. apply Sorted_inv in Hs as [_ Hhd].
  apply HdRel_inv in Hhd. by vm_compute in Hhd.
Qed.

End Categories.

(** ** Search *)

Section Search.

Lemma prefix_occurs (q s : string) :
  String.prefix q s = true ↔ ∃ post, s = q +:+ post.
Proof.
  revert q. induction s as [|c' s IH]; intros [|c q]; simpl.
  - split; [by exists EmptyString | done].
  - split; [done | by intros [? ?]].
  - split; [by eexists | done].
  - destruct (ascii_dec c c') as [<- | Hne].
    + rewrite IH. split; intros [post H]; exists post; by simplify_eq/=.
    + split; [done|]. intros [post H]. by simplify_eq/=.
Qed.

Lemma includes_occurs (q s : string) : includes q s = true ↔ occurs_in q s.
Proof.
  unfold occurs_in. induction s as [|c s IH]; cbn [includes].
  - rewrite orb_false_r, prefix_occurs. split.
    + intros [post H]. by exists EmptyString, post.
    + intros ([|? pre] & post & H); [by exists post | done].
  - rewrite orb_true_iff, prefix_occurs, IH. split.
    + intros [[post H] | (pre & post & H)].
      * by exists EmptyString, post.
      * exists (String c pre), post. simpl. by rewrite H.
    + intros ([|c' pre] & post & H).
      * left. by exists post.
      * right. exists pre, post. by simplify_eq/=.
Qed.

Lemma prop_is_true (k s : string) (i : item) :
  prop_is k s i = true ↔ prop k i = Some (VStr s).
Proof.
  unfold prop_is. destruct (prop k i) as [[]|]; try (split; done).
  rewrite String.eqb_eq. split; intros; by simplify_eq.
Qed.



(** C5 (fails in the scan-only variant).  The collection holds one
    scanned item, with sku SKU-1.  The query SKU-1 occurs in that sku,
    yet the filter of the scan-only variant returns nothing: it lowers
    the case of the query and not of the sku.  The filter of the CRUD
    variant returns the item. *)
Theorem Scan_filter_misses_sku :
  prop "sku" <$> Scan.inventory one_scan = [Some (VStr "SKU-1")] ∧
  occurs_in (toLowerCase "SKU-1") (toLowerCase "SKU-1") ∧
  Scan.filtered "SKU-1" "all" one_scan = Ok [] ∧
  Full.filteredItems "SKU-1" "all" (Full.State (Scan.inventory one_scan) None)
    = Ok (Scan.inventory one_scan).
Proof.
  split; [vm_compute; reflexivity|].
  split; [by exists EmptyString, EmptyString|].
  split; vm_compute; reflexivity.
Qed.

End Search.

(** ** The statements at sample data *)

Section Samples.

Lemma two_adds_run : Full.run_all two_adds Full.init = Ok two_items.
Proof. vm_compute. reflexivity. Defined.

Lemma two_scans_run : Scan.run_all two_scans Scan.init = Ok after_two_scans.
Proof. vm_compute. reflexivity. Defined.

(** C2 at the sample: the widget has quantity 2; lowering it by 5 gives
    quantity 0. *)
Lemma adjust_quantity_clamps_witness :
  ∃ st' i',
    Full.updateQuantity "item_1700000000500_k2j9x7c1q" (-5) "T2" two_items
      = Ok st' ∧
    Full.inventory st' = <[0%nat := i']> (Full.inventory two_items) ∧
    prop "quantity" i' = Some (VNum 0).
Proof.
  destruct (adjust_quantity_clamps "item_1700000000500_k2j9x7c1q" (-5) "T2"
              two_items Scan.init) as (_ & _ & Hfound & _).
  destruct (Hfound 0%nat
              (<["updatedAt" := VStr "T1"]>
                 (<["createdAt" := VStr "T1"]>
                    (<["id" := VStr "item_1700000000500_k2j9x7c1q"]> widget)))
              2) as (st' & i' & Hrun & Hinv & _ & _ & Hexact & _).
  - split; [reflexivity|]. split; [reflexivity|]. intros j y _ Hj. lia.
  - reflexivity.
  - exists st', i'. split; [exact Hrun|]. split; [exact Hinv|].
    apply Hexact. unfold within_2_53. lia.
Defined.

(** C2 as it was stated fails: a quantity of 2^53 raised by 1 stays
    2^53 in both variants, which is not max(0, q + d). *)
Lemma adjust_rounds_beyond_2_53 :
  prop "quantity" <$> Full.inventory one_grain
    = [Some (VNum 9007199254740992)] ∧
  (∃ st, Full.updateQuantity "item_1700000000000_4fzyo82mv" 1 "T1" one_grain
           = Ok st ∧
         prop "quantity" <$> Full.inventory st
           = [Some (VNum 9007199254740992)]) ∧
  (∃ st, Scan.changeQty "item_1700000000000_4fzyo82mv" 1 scan_one_grain
           = Ok st ∧
         prop "quantity" <$> Scan.inventory st
           = [Some (VNum 9007199254740992)]) ∧
  Z.max 0 (9007199254740992 + 1) ≠ 9007199254740992.
Proof.
  split; [vm_compute; reflexivity|].
  split; [eexists; split; vm_compute; reflexivity|].
  split; [eexists; split; vm_compute; reflexivity|].
  lia.
Qed.

(** C3 at the sample runs. *)
Lemma quantities_never_negative_witness :
  Forall (fun a => Full.quantity_ok a = true) two_adds ∧
  ∃ fst sst,
    Full.run_all two_adds Full.init = Ok fst ∧
    Scan.run_all two_scans Scan.init = Ok sst ∧
    Forall (fun i => nonneg_quantity i = true) (Full.inventory fst) ∧
    Forall (fun i => nonneg_quantity i = true) (Scan.inventory sst).
Proof.
  assert (Hok : Forall (fun a => Full.quantity_ok a = true) two_adds)
    by (repeat constructor).
  split; [exact Hok|].
  exact (quantities_never_negative two_adds two_scans Hok).
Defined.

(** C3 as it was stated fails: a draft with quantity -3 is added as it
    is, and a patch with quantity -5 is merged as it is. *)
Lemma negative_quantity_reachable :
  (∃ st, Full.run_all [Full.Add returned 1700000000000 "0.4fzyo82mvyr" "T0" "T0"]
           Full.init = Ok st ∧
         prop "quantity" <$> Full.inventory st = [Some (VNum (-3))] ∧
         ¬ Forall (fun i => nonneg_quantity i = true) (Full.inventory st)) ∧
  (∃ st, Full.run_all
           [Full.Add gadget 1700000000000 "0.4fzyo82mvyr" "T0" "T0";
            Full.Update "item_1700000000000_4fzyo82mv"
              {[ "quantity" := VNum (-5) ]} "T1"]
           Full.init = Ok st ∧
         prop "quantity" <$> Full.inventory st = [Some (VNum (-5))] ∧
         ¬ Forall (fun i => nonneg_quantity i = true) (Full.inventory st)).
Proof.
  split.
  - eexists. split; [vm_compute; reflexivity|].
    split; [vm_compute; reflexivity|].
    intros [H _]%Forall_cons. by vm_compute in H.
  - eexists. split; [vm_compute; reflexivity|].
    split; [vm_compute; reflexivity|].
    intros [H _]%Forall_cons. by vm_compute in H.
Qed.



(** C7 at the sample: the gadget, second in the collection, gets a new
    name. *)
Lemma updateItem_merges_in_place_witness :
  ∃ index old new,
    first_with "id" "item_1700000000000_4fzyo82mv"
      (Full.inventory two_items) index old ∧
    Full.inventory
      (Full.updateItem "item_1700000000000_4fzyo82mv"
         {[ "name" := VStr "Gadget II" ]} "T2" two_items) !! index = Some new ∧
    prop "updatedAt" new = Some (VStr "T2").
Proof.
  destruct (updateItem_merges_in_place "item_1700000000000_4fzyo82mv"
              {[ "name" := VStr "Gadget II" ]} "T2" two_items) as [_ Hfound].
  destruct Hfound as (index & old & new & Hfw & _ & Hnew & Hts & _).
  - intros Hnone. apply Forall_cons in Hnone as [_ Hnone].
    apply Forall_cons in Hnone as [Hnone _]. vm_compute in Hnone. discriminate.
  - exists index, old, new. split; [exact Hfw|]. split; [exact Hnew | exact Hts].
Defined.

(** C8 at the sample runs. *)
Lemma ids_stay_distinct_witness :
  NoDup (ids (Full.inventory two_items)) ∧
  NoDup (ids (Scan.inventory after_two_scans)).
Proof.
  destruct (ids_stay_distinct two_adds two_items two_scans after_two_scans)
    as (Hfull & Hscan & _).
  - apply (bool_decide_unpack _). vm_compute. exact I.
  - repeat constructor.
  - exact two_adds_run.
  - apply (bool_decide_unpack _). vm_compute. exact I.
  - exact two_scans_run.
  - split; [exact Hfull | exact Hscan].
Defined.

(** C8 as it was stated fails: two additions with the same clock reading
    and the same random number give two items one id; and a patch that
    has the property id changes the id of the item. *)
Lemma ids_can_repeat_or_change :
  (∃ st, Full.run_all same_draw Full.init = Ok st ∧
         ids (Full.inventory st)
           = [Some (VStr "item_1700000000000_4fzyo82mv");
              Some (VStr "item_1700000000000_4fzyo82mv")] ∧
         ¬ NoDup (ids (Full.inventory st))) ∧
  ids (Full.inventory one_item)
    = [Some (VStr "item_1700000000000_4fzyo82mv")] ∧
  ids (Full.inventory
         (Full.updateItem "item_1700000000000_4fzyo82mv"
            {[ "id" := VStr "other" ]} "T1" one_item))
    = [Some (VStr "other")].
Proof.
  split; [|split; vm_compute; reflexivity].
  eexists. split; [vm_compute; reflexivity|].
  split; [vm_compute; reflexivity|].
  intros Hnd. vm_compute in Hnd. apply NoDup_cons in Hnd as [Hin _].
  apply Hin. by left.
Qed.

(** C10 at the samples: the first scan of a barcode, on the empty
    collection, adds the product; a scan of the same barcode on the
    collection that holds the product raises its quantity from 1 to
    2. *)
Lemma onBarcodeDetected_adds_or_increments_witness :
  (∃ st' new,
     Scan.onBarcodeDetected "SKU-1" 1700000000000 "0.4fzyo82mvyr" Scan.init
       = Ok st' ∧
     Scan.inventory st' = [new] ∧
     prop "quantity" new = Some (VNum 1) ∧
     prop "createdAt" new = None) ∧
  (∃ st',
     Scan.onBarcodeDetected "SKU-1" 1700000002000 "0.9c3k1vq8d2" one_scan
       = Ok st' ∧
     prop "quantity" <$> Scan.inventory st' = [Some (VNum 2)] ∧
     ids (Scan.inventory st') = ids (Scan.inventory one_scan)).
Proof.
  split.
  - destruct (onBarcodeDetected_adds_or_increments "SKU-1" 1700000000000
                "0.4fzyo82mvyr" Scan.init) as [_ Hadd].
    + reflexivity.
    + destruct Hadd as (st' & new & Hrun & Hinv & Hnew & Hc & _).
      * constructor.
      * exists st', new. split; [exact Hrun|]. split; [exact Hinv|].
        split; [|exact Hc]. rewrite Hnew. reflexivity.
  - destruct (onBarcodeDetected_adds_or_increments "SKU-1" 1700000002000
                "0.9c3k1vq8d2" one_scan) as [Hinc _].
    + reflexivity.
    + destruct (Hinc 0%nat
                  (Scan.autoProduct "SKU-1" 1700000000000 "0.4fzyo82mvyr") 1)
        as (st' & Hrun & _ & Hexact & _).
      * split; [reflexivity|]. split; [reflexivity|]. intros j y _ Hj. lia.
      * reflexivity.
      * exists st'. split; [exact Hrun|].
        rewrite Hexact by (unfold within_2_53; lia). split; reflexivity.
Defined.

(** C10 as it was stated fails: with the clock reading and the random
    number of an earlier scan, the new item gets the id of the item that
    the earlier scan has added. *)
Lemma scan_id_not_fresh :
  ids (Scan.inventory one_scan)
    = [Some (VStr "item_1700000000000_4fzyo8")] ∧
  ∃ st', Scan.onBarcodeDetected "SKU-2" 1700000000000 "0.4fzyo82mvyr" one_scan
           = Ok st' ∧
         ids (Scan.inventory st')
           = [Some (VStr "item_1700000000000_4fzyo8");
              Some (VStr "item_1700000000000_4fzyo8")].
Proof.
  split; [vm_compute; reflexivity|].
  eexists. split; [vm_compute; reflexivity | vm_compute; reflexivity].
Qed.

(** The increment of a scan rounds like the quantity buttons: the
    scan of the sku of a stock of 2^53 units leaves the quantity as it
    is. *)
Example scan_rounds_beyond_2_53 :
  ∃ st, Scan.onBarcodeDetected "GR-1" 1700000002000 "0.9c3k1vq8d2"
          scan_one_grain = Ok st ∧
        prop "quantity" <$> Scan.inventory st = [Some (VNum 9007199254740992)].
Proof. eexists. split; vm_compute; reflexivity. Qed.

(** The scenarios of the specification. *)

Example scenario_add_widget :
  ∃ st, Full.run_all
          [Full.Add (Full.itemData "Widget" "W-1" "Tools" 3 "pcs" EmptyString)
                    1700000000000 "0.4fzyo82mvyr" "T0" "T0"] Full.init = Ok st ∧
        length (Full.inventory st) = 1%nat ∧
        prop "quantity" <$> Full.inventory st = [Some (VNum 3)].
Proof. eexists. split; [vm_compute; reflexivity|]. split; reflexivity. Qed.

Example scenario_clamp :
  ∃ st, Full.updateQuantity "item_1700000000500_k2j9x7c1q" (-5) "T2" two_items
          = Ok st ∧
        prop "quantity" <$> Full.inventory st = [Some (VNum 0); Some (VNum 9)].
Proof. eexists. split; vm_compute; reflexivity. Qed.

Example scenario_filter_category :
  Full.getCategories two_items = Ok ["General"; "Tools"] ∧
  ∃ out, Full.filteredItems EmptyString "General" two_items = Ok out ∧
         prop "name" <$> out = [Some (VStr "Gadget")].
Proof.
  split; [vm_compute; reflexivity|].
  eexists. split; vm_compute; reflexivity.
Qed.

End Samples.

(** * Further properties of the store *)

(** ** delete *)

Section Delete.

Lemma none_has_filter (id : string) (inv : list item) :
  none_has "id" id (filter (fun i => prop_is "id" id i = false) inv).
Proof.
  apply Forall_forall. intros i Hi. by apply list_elem_of_filter in Hi as [? _].
Qed.

Lemma filter_none_has (id : string) (inv : list item) :
  none_has "id" id inv → filter (fun i => prop_is "id" id i = false) inv = inv.
Proof.
  induction 1 as [|i inv Hi _ IH]; [done|].
  rewrite filter_cons_True by done. by rewrite IH.
Qed.

Lemma deleteItem_inventory (id : string) (st : Full.state) :
  Full.inventory (Full.deleteItem id st)
  = filter (fun i => prop_is "id" id i = false) (Full.inventory st).
Proof.
  unfold Full.deleteItem. rewrite find_find_first.
  destruct (find_first_cases "id" id (Full.inventory st))
    as [Hnone | (index & old & Hfind)].
  - rewrite (proj2 (find_first_None _ _ _) Hnone). simpl.
    by rewrite filter_none_has.
  - by rewrite Hfind.
Qed.

(** X1.  [deleteItem] removes every item that has the id and keeps the
    other items, in their order; when no item has the id it leaves the
    whole state, the storage slot included, as it is; when some item has
    it the collection gets shorter. *)
Theorem deleteItem_removes_all (id : string) (st : Full.state) :
  none_has "id" id (Full.inventory (Full.deleteItem id st)) ∧
  (∀ i, i ∈ Full.inventory (Full.deleteItem id st) ↔
        i ∈ Full.inventory st ∧ prop_is "id" id i = false) ∧
  Full.inventory (Full.deleteItem id st) `sublist_of` Full.inventory st ∧
  (none_has "id" id (Full.inventory st) → Full.deleteItem id st = st) ∧
  (¬ none_has "id" id (Full.inventory st) →
   (length (Full.inventory (Full.deleteItem id st))
    < length (Full.inventory st))%nat).
Proof.
  rewrite deleteItem_inventory. split_and!.
  - apply none_has_filter.
  - intros i. rewrite list_elem_of_filter. tauto.
  - apply sublist_filter.
  - intros Hnone%find_first_None. unfold Full.deleteItem.
    by rewrite find_find_first, Hnone.
  - intros Hsome.
    destruct (find_first_cases "id" id (Full.inventory st))
      as [Hnone | (index & old & (Hidx & Hid & _)%find_first_Some)]; [done|].
    apply list_elem_of_lookup_2 in Hidx.
    eapply length_filter_lt; [exact Hidx|]. by rewrite Hid.
Qed.

(** X2.  Deleting the id that [addItem] has just generated gives back
    the collection as it was before the addition, provided no item had
    that id. *)
Theorem add_then_delete_restores (itemData : item) (now : Z)
    (rnd created updated : string) (st : Full.state)
    (Hfree : none_has "id" (Full.generateId now rnd) (Full.inventory st)) :
  Full.inventory
    (Full.deleteItem (Full.generateId now rnd)
       (Full.addItem itemData now rnd created updated st))
  = Full.inventory st.
Proof.
  rewrite deleteItem_inventory. simpl.
  rewrite filter_cons_False.
  - by apply filter_none_has.
  - unfold prop_is, prop. rewrite !lookup_insert_ne by done.
    rewrite lookup_insert_eq, String.eqb_refl. done.
Qed.

End Delete.

(** ** The storage slot follows the collection *)

Section Sync.











End Sync.

(** ** Generated ids *)

Section GeneratedIds.

(** X4.  Two calls of [generateId] return the same id exactly when they
    read the same clock value and the random strings agree on the
    characters that the id takes from them: nine after the first two in
    the CRUD variant, six in the scan-only variant. *)
Theorem generateId_equal_iff (now now' : Z) (rnd rnd' : string) :
  (Full.generateId now rnd = Full.generateId now' rnd' ↔
   now = now' ∧ substring 2 9 rnd = substring 2 9 rnd') ∧
  (Scan.generateId now rnd = Scan.generateId now' rnd' ↔
   now = now' ∧ substring 2 6 rnd = substring 2 6 rnd').
Proof.
  split; (split; [apply item_id_inj|]); intros [-> Hr].
  - unfold Full.generateId. by rewrite Hr.
  - unfold Scan.generateId. by rewrite Hr.
Qed.

End GeneratedIds.

(** ** Two adjustments in a row *)

Section Compose.

Lemma first_with_insert (k s : string) (inv : list item) (index : nat) (i i' : item) :
  first_with k s inv index i → prop_is k s i' = true →
  first_with k s (<[index := i']> inv) index i'.
Proof.
  intros (Hidx & Hi & Hbefore) Hi'. split_and!; [|done|].
  - apply list_lookup_insert_eq. by eapply lookup_lt_Some.
  - intros j y Hj Hlt. rewrite list_lookup_insert_ne in Hj by lia. eauto.
Qed.

Lemma prop_is_ext (k s : string) (i i' : item) :
  prop k i' = prop k i → prop_is k s i' = prop_is k s i.
Proof. unfold prop_is. by intros ->. Qed.

Lemma updateQuantity_step (id : string) (delta : Z) (ts : string)
    (st : Full.state) (index : nat) (i : item) (q : Z) :
  first_with "id" id (Full.inventory st) index i →
  prop "quantity" i = Some (VNum q) →
  ∃ st' i',
    Full.updateQuantity id delta ts st = Ok st' ∧
    Full.inventory st' = <[index := i']> (Full.inventory st) ∧
    first_with "id" id (Full.inventory st') index i' ∧
    prop "quantity" i' = Some (VNum (Z.max 0 (Number_add q delta))) ∧
    ∀ k, k ≠ "quantity" → k ≠ "updatedAt" → prop k i' = prop k i.
Proof.
  intros Hfw Hq. eexists _, _.
  split; [by eapply updateQuantity_found|].
  assert (Hinv := updateItem_found id
                    {[ "quantity" := VNum (Z.max 0 (Number_add q delta)) ]}
                    ts st index i (proj2 (find_first_Some _ _ _ _ _) Hfw)).
  split; [exact Hinv|].
  assert (Hother : ∀ k, k ≠ "quantity" → k ≠ "updatedAt" →
            prop k (<["updatedAt" := VStr ts]>
                      ({[ "quantity" := VNum (Z.max 0 (Number_add q delta)) ]} ∪ i))
            = prop k i).
  { intros k Hk Hk'. rewrite merged_lookup. case_decide; [done|].
    unfold prop. by rewrite lookup_singleton_ne. }
  split_and!.
  - rewrite Hinv. eapply first_with_insert; [exact Hfw|].
    destruct Hfw as (_ & Hid & _).
    etrans; [apply prop_is_ext, Hother; done | exact Hid].
  - rewrite merged_lookup. case_decide; [done|].
    unfold prop. by rewrite lookup_singleton_eq.
  - exact Hother.
Qed.

Lemma changeQty_step (id : string) (d : Z) (st : Scan.state)
    (index : nat) (i : item) (q : Z) :
  first_with "id" id (Scan.inventory st) index i →
  prop "quantity" i = Some (VNum q) →
  ∃ st' i',
    Scan.changeQty id d st = Ok st' ∧
    Scan.inventory st' = <[index := i']> (Scan.inventory st) ∧
    first_with "id" id (Scan.inventory st') index i' ∧
    prop "quantity" i' = Some (VNum (Z.max 0 (Number_add q d))) ∧
    ∀ k, k ≠ "quantity" → prop k i' = prop k i.
Proof.
  intros Hfw Hq.
  destruct (changeQty_found id d st index i q Hfw Hq) as (st' & Hrun & Hinv).
  exists st', (<["quantity" := VNum (Z.max 0 (Number_add q d))]> i).
  assert (Hother : ∀ k, k ≠ "quantity" →
            prop k (<["quantity" := VNum (Z.max 0 (Number_add q d))]> i) = prop k i).
  { intros k Hk. unfold prop. by rewrite lookup_insert_ne. }
  split_and!; [done | done | | | done].
  - rewrite Hinv. eapply first_with_insert; [exact Hfw|].
    destruct Hfw as (_ & Hid & _).
    etrans; [apply prop_is_ext, Hother; done | exact Hid].
  - unfold prop. by rewrite lookup_insert_eq.
Qed.

(** X5.  Two quantity adjustments of one item in a row, in either
    variant, act on the same position and leave the quantity that the
    two clamped sums of the language give; the other properties of the
    item are kept (the CRUD variant refreshes updatedAt).  Where q + d1
    and max(0, q + d1) + d2 are within 2^53 in magnitude, the quantity
    is max(0, max(0, q + d1) + d2); so plus one and then minus one
    restores a quantity from 0 to 2^53 - 1, whereas it takes 2^53 to
    2^53 - 1. *)
Theorem adjustments_compose (id : string) (d1 d2 : Z) (t1 t2 : string)
    (fst : Full.state) (sst : Scan.state) (index : nat) (i : item) (q : Z)
    (Hq : prop "quantity" i = Some (VNum q)) :
  (first_with "id" id (Full.inventory fst) index i →
   ∃ st1 st2 i2,
     Full.updateQuantity id d1 t1 fst = Ok st1 ∧
     Full.updateQuantity id d2 t2 st1 = Ok st2 ∧
     Full.inventory st2 = <[index := i2]> (Full.inventory fst) ∧
     prop "quantity" i2
     = Some (VNum (Z.max 0 (Number_add (Z.max 0 (Number_add q d1)) d2))) ∧
     (within_2_53 (q + d1) → within_2_53 (Z.max 0 (q + d1) + d2) →
      prop "quantity" i2 = Some (VNum (Z.max 0 (Z.max 0 (q + d1) + d2)))) ∧
     (0 ≤ q < 2 ^ 53 → d1 = 1 → d2 = -1 → prop "quantity" i2 = Some (VNum q)) ∧
     (q = 2 ^ 53 → d1 = 1 → d2 = -1 →
      prop "quantity" i2 = Some (VNum (2 ^ 53 - 1))) ∧
     ∀ k, k ≠ "quantity" → k ≠ "updatedAt" → prop k i2 = prop k i) ∧
  (first_with "id" id (Scan.inventory sst) index i →
   ∃ st1 st2 i2,
     Scan.changeQty id d1 sst = Ok st1 ∧
     Scan.changeQty id d2 st1 = Ok st2 ∧
     Scan.inventory st2 = <[index := i2]> (Scan.inventory sst) ∧
     prop "quantity" i2
     = Some (VNum (Z.max 0 (Number_add (Z.max 0 (Number_add q d1)) d2))) ∧
     (within_2_53 (q + d1) → within_2_53 (Z.max 0 (q + d1) + d2) →
      prop "quantity" i2 = Some (VNum (Z.max 0 (Z.max 0 (q + d1) + d2)))) ∧
     (0 ≤ q < 2 ^ 53 → d1 = 1 → d2 = -1 → prop "quantity" i2 = Some (VNum q)) ∧
     (q = 2 ^ 53 → d1 = 1 → d2 = -1 →
      prop "quantity" i2 = Some (VNum (2 ^ 53 - 1))) ∧
     ∀ k, k ≠ "quantity" → prop k i2 = prop k i).
Proof.
  assert (Hexact : within_2_53 (q + d1) →
            within_2_53 (Z.max 0 (q + d1) + d2) →
            Z.max 0 (Number_add (Z.max 0 (Number_add q d1)) d2)
            = Z.max 0 (Z.max 0 (q + d1) + d2)).
  { intros H1 H2. by rewrite (Number_add_exact q d1 H1), Number_add_exact. }
  assert (Hback : 0 ≤ q < 2 ^ 53 → d1 = 1 → d2 = -1 →
            Z.max 0 (Number_add (Z.max 0 (Number_add q d1)) d2) = q).
  { intros Hpos -> ->. rewrite Hexact; unfold within_2_53; lia. }
  assert (Hlost : q = 2 ^ 53 → d1 = 1 → d2 = -1 →
            Z.max 0 (Number_add (Z.max 0 (Number_add q d1)) d2) = 2 ^ 53 - 1).
  { intros -> -> ->. vm_compute. reflexivity. }
  split; intros Hfw.
  - destruct (updateQuantity_step id d1 t1 fst index i q Hfw Hq)
      as (st1 & i1 & Hrun1 & Hinv1 & Hfw1 & Hq1 & Hk1).
    destruct (updateQuantity_step id d2 t2 st1 index i1 _ Hfw1 Hq1)
      as (st2 & i2 & Hrun2 & Hinv2 & _ & Hq2 & Hk2).
    exists st1, st2, i2. split_and!; [done | done | | done | | | |].
    + by rewrite Hinv2, Hinv1, list_insert_insert_eq.
    + intros H1 H2. by rewrite Hq2, Hexact.
    + intros H1 H2 H3. by rewrite Hq2, Hback.
    + intros H1 H2 H3. by rewrite Hq2, Hlost.
    + intros k Hk Hk'. rewrite Hk2, Hk1; done.
  - destruct (changeQty_step id d1 sst index i q Hfw Hq)
      as (st1 & i1 & Hrun1 & Hinv1 & Hfw1 & Hq1 & Hk1).
    destruct (changeQty_step id d2 st1 index i1 _ Hfw1 Hq1)
      as (st2 & i2 & Hrun2 & Hinv2 & _ & Hq2 & Hk2).
    exists st1, st2, i2. split_and!; [done | done | | done | | | |].
    + by rewrite Hinv2, Hinv1, list_insert_insert_eq.
    + intros H1 H2. by rewrite Hq2, Hexact.
    + intros H1 H2 H3. by rewrite Hq2, Hback.
    + intros H1 H2 H3. by rewrite Hq2, Hlost.
    + intros k Hk. rewrite Hk2, Hk1; done.
Qed.

End Compose.

(** ** The filter at its edges *)

Section FilterEdges.

Lemma includes_empty (s : string) : includes EmptyString s = true.
Proof. by destruct s. Qed.

Lemma filter_o_throws {A} (f : A → outcome bool) (l : list A) (x : A) :
  (∀ y, y ∈ l → f y = Throw TypeError ∨ ∃ b, f y = Ok b) →
  x ∈ l → f x = Throw TypeError →
  filter_o f l = Throw TypeError.
Proof.
  intros Hall Hx Hfx. induction l as [|y l IH]; [by apply elem_of_nil in Hx|].
  simpl. destruct (Hall y) as [Hy | [b Hy]]; [by left | by rewrite Hy |].
  rewrite Hy, bind_Ok.
  apply elem_of_cons in Hx as [-> | Hx]; [congruence|].
  rewrite IH; [done | | done]. intros z Hz. apply Hall. by right.
Qed.

(** X6.  If some item of the collection has no name, or a name that is
    not a string, the filter of [renderTable] throws a TypeError in both
    variants, whatever the query and the selected category. *)
Theorem filter_throws_without_name (query cat : string) (i : item)
    (fst : Full.state) (sst : Scan.state)
    (Hname : ¬ has_name i) :
  (i ∈ Full.inventory fst →
   Full.filteredItems query cat fst = Throw TypeError) ∧
  (i ∈ Scan.inventory sst →
   Scan.filtered query cat sst = Throw TypeError).
Proof.
  split; intros Hi.
  - eapply filter_o_throws; [|exact Hi|].
    + intros y _. unfold Full.matchesSearch.
      destruct (prop "name" y) as [[]|]; try by left.
      destruct (includes _ _); [right; by eexists|].
      destruct (prop "sku" y) as [[]|]; try by left. right. by eexists.
    + unfold Full.matchesSearch.
      destruct (prop "name" i) as [[]|] eqn:E; try done.
      destruct Hname. by eexists.
  - eapply filter_o_throws; [|exact Hi|].
    + intros y _.
      destruct (prop "name" y) as [[]|]; try by left.
      destruct (includes _ _); [right; by eexists|].
      unfold Scan.sku_includes.
      destruct (prop "sku" y) as [[]|]; try (by left); right; by eexists.
    + destruct (prop "name" i) as [[]|] eqn:E; try done.
      destruct Hname. by eexists.
Qed.

Lemma filter_o_pure {A} (f : A → outcome bool) (g : A → bool) (l : list A) :
  Forall (fun x => f x = Ok (g x)) l → filter_o f l = Ok (List.filter g l).
Proof.
  induction 1 as [|x l Hx _ IH]; simpl; [done|].
  rewrite Hx, IH. by destruct (g x).
Qed.

Lemma filter_all_true {A} (l : list A) : List.filter (fun _ => true) l = l.
Proof. induction l as [|x l IH]; simpl; [done | by rewrite IH]. Qed.

(** X7.  With an empty search text, the filter of [renderTable] returns,
    in both variants, the items of the selected category in the order of
    the collection, and the whole collection for the selection all,
    provided every item has a string as its name (the sku is then not
    looked at). *)
Theorem empty_query_selects_category (cat : string)
    (fst : Full.state) (sst : Scan.state) :
  (Forall has_name (Full.inventory fst) →
   Full.filteredItems EmptyString cat fst
   = Ok (List.filter (fun i => String.eqb cat "all" || prop_is "category" cat i)
                     (Full.inventory fst)) ∧
   Full.filteredItems EmptyString "all" fst = Ok (Full.inventory fst)) ∧
  (Forall has_name (Scan.inventory sst) →
   Scan.filtered EmptyString cat sst
   = Ok (List.filter (fun i => String.eqb cat "all" || prop_is "category" cat i)
                     (Scan.inventory sst)) ∧
   Scan.filtered EmptyString "all" sst = Ok (Scan.inventory sst)).
Proof.
  assert (Hfull : ∀ c, Forall has_name (Full.inventory fst) →
            Full.filteredItems EmptyString c fst
            = Ok (List.filter
                    (fun i => String.eqb c "all" || prop_is "category" c i)
                    (Full.inventory fst))).
  { intros c Hall. apply filter_o_pure.
    eapply Forall_impl; [exact Hall|]. intros i [name Hn].
    unfold Full.matchesSearch. simpl. by rewrite Hn, includes_empty. }
  assert (Hscan : ∀ c, Forall has_name (Scan.inventory sst) →
            Scan.filtered EmptyString c sst
            = Ok (List.filter
                    (fun i => String.eqb c "all" || prop_is "category" c i)
                    (Scan.inventory sst))).
  { intros c Hall. apply filter_o_pure.
    eapply Forall_impl; [exact Hall|]. intros i [name Hn].
    simpl. by rewrite Hn, includes_empty. }
  split; intros Hall.
  - split; [by apply Hfull|]. rewrite Hfull by done. simpl.
    by rewrite filter_all_true.
  - split; [by apply Hscan|]. rewrite Hscan by done. simpl.
    by rewrite filter_all_true.
Qed.

End FilterEdges.

(** ** Scans *)

Section Scans.

(** X8.  Whatever a call of [onBarcodeDetected] has done, it leaves the
    cooldown on, and every further call before the timer fires returns
    the state as it is, for any barcode. *)
Theorem scan_in_cooldown_ignored (b1 b2 : string) (now1 now2 : Z)
    (rnd1 rnd2 : string) (st st1 : Scan.state)
    (Hfirst : Scan.onBarcodeDetected b1 now1 rnd1 st = Ok st1) :
  Scan.scanCooldown st1 = true ∧
  Scan.onBarcodeDetected b2 now2 rnd2 st1 = Ok st1 ∧
  Scan.scanCooldown (Scan.cooldownElapsed st1) = false.
Proof.
  assert (Hcool : Scan.scanCooldown st1 = true).
  { unfold Scan.onBarcodeDetected in Hfirst.
    destruct (Scan.scanCooldown st) eqn:E; [by simplify_eq|].
    destruct (find_first _ _) as [[index i]|].
    - destruct (prop "quantity" i) as [[]|]; try done. by simplify_eq/=.
    - by simplify_eq/=. }
  split; [done|]. split; [|done].
  unfold Scan.onBarcodeDetected. by rewrite Hcool.
Qed.

Lemma scan_known_front (barcode : string) (now : Z) (rnd : string)
    (it : item) (n : Z) (inv : list item) (slot sel : _) :
  prop "sku" it = Some (VStr barcode) → prop "quantity" it = Some (VNum n) →
  Scan.onBarcodeDetected barcode now rnd (Scan.State (it :: inv) slot sel false)
  = Ok (Scan.saveInventory
          (Scan.State (<["quantity" := VNum (Number_add n 1)]> it :: inv)
                      slot sel true)).
Proof.
  intros Hsku Hn. unfold Scan.onBarcodeDetected.
  cbn [Scan.scanCooldown Scan.inventory Scan.storage Scan.deletingItemId].
  assert (Hfind : find_first (prop_is "sku" barcode) (it :: inv) = Some (0%nat, it)).
  { apply find_first_Some. split_and!; [done | | intros; lia].
    by apply prop_is_true. }
  rewrite Hfind, Hn. by rewrite bind_Ok.
Qed.

Lemma scan_times_cons (barcode : string) (now : Z) (rnd : string)
    (more : list (Z * string)) (st : Scan.state) :
  Scan.run_all (Scan.scan_times barcode ((now, rnd) :: more)) st
  = st1 ← Scan.onBarcodeDetected barcode now rnd st;
    Scan.run_all (Scan.scan_times barcode more) (Scan.cooldownElapsed st1).
Proof.
  change (Scan.scan_times barcode ((now, rnd) :: more))
    with (Scan.Detect barcode now rnd :: Scan.CooldownElapsed
          :: Scan.scan_times barcode more).
  cbn [Scan.run_all Scan.run].
  by destruct (Scan.onBarcodeDetected barcode now rnd st).
Qed.

Lemma scan_times_known (barcode : string) (more : list (Z * string))
    (it : item) (n : Z) (inv : list item) (slot sel : _) :
  prop "sku" it = Some (VStr barcode) → prop "quantity" it = Some (VNum n) →
  0 ≤ n ≤ 2 ^ 53 →
  ∃ slot',
    Scan.run_all (Scan.scan_times barcode more)
      (Scan.State (it :: inv) slot sel false)
    = Ok (Scan.State
            (<["quantity" :=
                 VNum (Z.min (n + Z.of_nat (length more)) (2 ^ 53))]> it :: inv)
            slot' sel false).
Proof.
  revert it n slot.
  induction more as [|[now rnd] more IH]; intros it n slot Hsku Hn Hrange.
  - exists slot. simpl. rewrite Z.add_0_r, Z.min_l by lia.
    do 3 f_equal. symmetry. by apply insert_id.
  - rewrite scan_times_cons, (scan_known_front barcode now rnd _ n) by done.
    rewrite bind_Ok, (Number_add_one_capped n Hrange).
    unfold Scan.saveInventory, Scan.cooldownElapsed.
    cbn [Scan.scanCooldown Scan.inventory Scan.storage Scan.deletingItemId].
    set (n' := Z.min (n + 1) (2 ^ 53)).
    destruct (IH (<["quantity" := VNum n']> it) n'
                (Some (JSON.stringify
                     (array_of (<["quantity" := VNum n']> it :: inv)))))
      as [slot' Hrun].
    + unfold prop. by rewrite lookup_insert_ne.
    + unfold prop. by rewrite lookup_insert_eq.
    + unfold n'. lia.
    + exists slot'. rewrite Hrun, insert_insert_eq.
      rewrite length_cons, Nat2Z.inj_succ.
      by replace (Z.min (n' + Z.of_nat (length more)) (2 ^ 53))
        with (Z.min (n + Z.succ (Z.of_nat (length more))) (2 ^ 53))
        by (unfold n'; lia).
Qed.

(** X9.  Starting outside the cooldown with a barcode that is the sku of
    no item, any number of scans of that barcode, each followed by the
    end of its cooldown, adds one item: the product of the first scan,
    with the number of scans as its quantity, up to 2^53, where the
    increment of the language stops changing the number. *)
Theorem scans_count (barcode : string) (now0 : Z) (rnd0 : string)
    (more : list (Z * string)) (st : Scan.state)
    (Hcool : Scan.scanCooldown st = false)
    (Hnew : none_has "sku" barcode (Scan.inventory st)) :
  ∃ st',
    Scan.run_all (Scan.scan_times barcode ((now0, rnd0) :: more)) st = Ok st' ∧
    Scan.inventory st'
      = <["quantity" :=
            VNum (Z.min (1 + Z.of_nat (length more)) (2 ^ 53))]>
          (Scan.autoProduct barcode now0 rnd0) :: Scan.inventory st ∧
    Scan.scanCooldown st' = false.
Proof.
  rewrite scan_times_cons.
  unfold Scan.onBarcodeDetected.
  rewrite Hcool, (proj2 (find_first_None _ _ _) Hnew), !bind_Ok.
  unfold Scan.saveInventory, Scan.cooldownElapsed.
  cbn [Scan.scanCooldown Scan.inventory Scan.storage Scan.deletingItemId].
  destruct (scan_times_known barcode more (Scan.autoProduct barcode now0 rnd0) 1
              (Scan.inventory st)
              (Some (JSON.stringify
                 (array_of (Scan.autoProduct barcode now0 rnd0
                            :: Scan.inventory st))))
              (Scan.deletingItemId st)) as [slot' Hrun]; [done | done | lia |].
  eexists. split; [exact Hrun|]. done.
Qed.

End Scans.

(** ** Deleting in the scan-only variant *)

Section ScanDelete.






End ScanDelete.

(** ** The dashboard numbers *)

Section Dashboard.

Lemma countable_quantity (i : item) :
  countable i → prop "quantity" i = Some (VNum (quantity_of i)).
Proof. intros [[q Hq] _]. unfold quantity_of. by rewrite Hq. Qed.

Lemma sum_quantity_sum (l : list item) (acc : Z) :
  Forall countable l → sum_quantity acc l = Ok (acc + sum_of l).
Proof.
  intros Hl. revert acc. induction Hl as [|i l Hi _ IH]; intros acc; simpl.
  - by rewrite Z.add_0_r.
  - rewrite (countable_quantity i Hi), IH. f_equal. lia.
Qed.

Lemma is_low_low (l : list item) :
  Forall countable l → filter_o is_low l = Ok (List.filter low l).
Proof.
  intros Hl. apply filter_o_pure. eapply Forall_impl; [exact Hl|].
  intros i Hi. unfold is_low, low. by rewrite (countable_quantity i Hi).
Qed.

Lemma categories_of_countable (l : list item) :
  Forall countable l → ∃ cs, categories_of l = Ok cs ∧ length cs = length l.
Proof.
  induction 1 as [|i l [_ [c Hc]] _ (cs & Hcs & Hlen)]; simpl.
  - by exists [].
  - exists (c :: cs). rewrite Hc, Hcs. split; [done|]. simpl. by rewrite Hlen.
Qed.

Lemma Set_values_length (cs : list string) :
  (length (Set_values cs) ≤ length cs)%nat ∧
  (length (Set_values cs) = 0%nat ↔ length cs = 0%nat).
Proof.
  destruct (Set_values_spec cs) as [Hnd Hin]. split.
  - apply submseteq_length, NoDup_submseteq; [done|]. intros x. by rewrite Hin.
  - split.
    + intros H0. destruct cs as [|c cs]; [done|].
      apply nil_length_inv in H0. assert (Hc : c ∈ Set_values (c :: cs)).
      { apply Hin. left. }
      rewrite H0 in Hc. by apply elem_of_nil in Hc.
    + intros H0. apply nil_length_inv in H0. by subst.
Qed.

Lemma sort_length (l : list string) : length (sort l) = length l.
Proof. unfold sort. by rewrite merge_sort_Permutation. Qed.

(** The numbers of both variants on a collection with integer quantities
    and string categories. *)
Lemma updateStats_countable (inv : list item) :
  Forall countable inv →
  ∃ cs, categories_of inv = Ok cs ∧ length cs = length inv ∧
    ∀ (fst : Full.state) (sst : Scan.state),
      Full.inventory fst = inv → Scan.inventory sst = inv →
      Full.updateStats fst
      = Ok (Stats (length inv) (sum_of inv) (length (Set_values cs))
                  (length (List.filter low inv))) ∧
      Scan.updateStats sst
      = Ok (Stats (length inv) (sum_of inv) (length (Set_values cs))
                  (length (List.filter low inv))).
Proof.
  intros Hinv. destruct (categories_of_countable inv Hinv) as (cs & Hcs & Hlen).
  exists cs. split_and!; [done..|]. intros fst sst Hf Hs.
  unfold Full.updateStats, Scan.updateStats, Full.getCategories,
    Scan.getCategories.
  rewrite Hf, Hs, (sum_quantity_sum inv 0 Hinv), Hcs, (is_low_low inv Hinv).
  rewrite !bind_Ok, sort_length. by rewrite Z.add_0_l.
Qed.

Lemma low_bound (l : list item) :
  all_nonneg l →
  LOW_STOCK_THRESHOLD
    * (Z.of_nat (length l) - Z.of_nat (length (List.filter low l)))
  ≤ sum_of l.
Proof.
  unfold LOW_STOCK_THRESHOLD.
  induction 1 as [|i l Hi _ IH]; [done|].
  cbn [List.filter sum_of foldr]. fold (sum_of l).
  unfold nonneg_quantity in Hi. unfold low at 1, quantity_of at 1 2.
  unfold LOW_STOCK_THRESHOLD.
  destruct (prop "quantity" i) as [[| |q| | |]|]; try done.
  apply Z.leb_le in Hi.
  destruct (Z.ltb_spec q 5); rewrite !length_cons; lia.
Qed.

(** X11.  On a collection whose quantities are integers and whose
    categories are strings, [updateStats] writes the same four numbers in
    both variants: the number of items, and a count of low stock and a
    count of categories that are both at most the number of items, the
    count of categories being zero only for the empty collection.  If no
    quantity is negative, the total quantity is at least the threshold
    times the number of items that are not low on stock. *)
Theorem updateStats_bounds (fst : Full.state) (sst : Scan.state)
    (Hsame : Full.inventory fst = Scan.inventory sst)
    (Hinv : Forall countable (Full.inventory fst)) :
  ∃ s, Full.updateStats fst = Ok s ∧ Scan.updateStats sst = Ok s ∧
    totalItems s = length (Full.inventory fst) ∧
    (lowStock s ≤ totalItems s)%nat ∧
    (categories s ≤ totalItems s)%nat ∧
    (categories s = 0%nat ↔ totalItems s = 0%nat) ∧
    (all_nonneg (Full.inventory fst) →
     LOW_STOCK_THRESHOLD * (Z.of_nat (totalItems s) - Z.of_nat (lowStock s))
     ≤ totalQuantity s).
Proof.
  destruct (updateStats_countable _ Hinv) as (cs & Hcs & Hlen & Hstats).
  destruct (Hstats fst sst eq_refl (eq_sym Hsame)) as [Hf Hs].
  eexists. split_and!; [exact Hf | exact Hs | done | ..];
    cbn [totalItems totalQuantity categories lowStock].
  - apply List.filter_length_le.
  - rewrite <- Hlen. apply Set_values_length.
  - rewrite <- Hlen. apply Set_values_length.
  - apply low_bound.
Qed.

Lemma sum_of_insert (inv : list item) (index : nat) (i i' : item) :
  inv !! index = Some i →
  sum_of (<[index := i']> inv) = sum_of inv - quantity_of i + quantity_of i'.
Proof.
  revert index. induction inv as [|x inv IH]; intros [|index] Hidx;
    simplify_eq/=.
  - fold (sum_of inv). lia.
  - fold (sum_of inv) (sum_of (<[index := i']> inv)).
    rewrite (IH index Hidx). lia.
Qed.

Lemma categories_of_insert (inv : list item) (index : nat) (i i' : item) :
  inv !! index = Some i → prop "category" i' = prop "category" i →
  categories_of (<[index := i']> inv) = categories_of inv.
Proof.
  revert index. induction inv as [|x inv IH]; intros [|index] Hidx Hcat;
    simplify_eq/=.
  - by rewrite Hcat.
  - by rewrite (IH index Hidx Hcat).
Qed.

Lemma sum_of_nonneg (inv : list item) : all_nonneg inv → 0 ≤ sum_of inv.
Proof.
  induction 1 as [|i inv Hi _ IH]; [done|].
  cbn [sum_of foldr]. fold (sum_of inv).
  unfold nonneg_quantity in Hi. unfold quantity_of.
  destruct (prop "quantity" i) as [[| |q| | |]|]; try done.
  apply Z.leb_le in Hi. lia.
Qed.

Lemma quantity_within_sum (inv : list item) (index : nat) (i : item) :
  all_nonneg inv → inv !! index = Some i →
  0 ≤ quantity_of i ≤ sum_of inv.
Proof.
  intros Hinv. revert index.
  induction Hinv as [|x inv Hx Hinv IH]; intros [|index] Hidx; simplify_eq/=;
    fold (sum_of inv).
  - pose proof (sum_of_nonneg inv Hinv).
    unfold nonneg_quantity in Hx. unfold quantity_of.
    destruct (prop "quantity" i) as [[| |q| | |]|]; try done.
    apply Z.leb_le in Hx. lia.
  - specialize (IH index Hidx).
    unfold nonneg_quantity in Hx. unfold quantity_of at 3.
    destruct (prop "quantity" x) as [[| |q| | |]|]; try done.
    apply Z.leb_le in Hx. lia.
Qed.

(** X12.  On a collection whose quantities are integers that are not
    negative, whose categories are strings and whose total, with the
    delta where it is positive, stays within 2^53 (so that the sums of
    the language are the sums of the integers), a quantity adjustment of
    the CRUD variant by a delta within 2^53 that finds its item leaves
    the number of items and the number of categories on the dashboard as
    they are and moves the total quantity by the difference between the
    new quantity [max(0, q + delta)] and the old one [q]. *)
Theorem updateQuantity_moves_total (id : string) (delta : Z) (ts : string)
    (st : Full.state) (index : nat) (i : item) (q : Z)
    (Hinv : Forall countable (Full.inventory st))
    (Hnonneg : all_nonneg (Full.inventory st))
    (Hdelta : within_2_53 delta)
    (Hbound : sum_of (Full.inventory st) + Z.max 0 delta ≤ 2 ^ 53)
    (Hfw : first_with "id" id (Full.inventory st) index i)
    (Hq : prop "quantity" i = Some (VNum q)) :
  ∃ st' s s',
    Full.updateQuantity id delta ts st = Ok st' ∧
    Full.updateStats st = Ok s ∧ Full.updateStats st' = Ok s' ∧
    totalItems s' = totalItems s ∧
    categories s' = categories s ∧
    totalQuantity s' = totalQuantity s - q + Z.max 0 (q + delta) ∧
    totalQuantity s' ≤ 2 ^ 53.
Proof.
  destruct (updateQuantity_step id delta ts st index i q Hfw Hq)
    as (st' & i' & Hrun & Hinv' & _ & Hq' & Hkeep).
  assert (Hidx : Full.inventory st !! index = Some i) by apply Hfw.
  assert (Hqi : quantity_of i = q) by (unfold quantity_of; by rewrite Hq).
  pose proof (quantity_within_sum _ _ _ Hnonneg Hidx) as Hrange.
  rewrite Hqi in Hrange.
  assert (Hexact : within_2_53 (q + delta)) by (unfold within_2_53 in *; lia).
  rewrite (Number_add_exact q delta Hexact) in Hq'.
  assert (Hi : countable i).
  { eapply Forall_forall; [exact Hinv|]. by eapply list_elem_of_lookup_2. }
  assert (Hcat : prop "category" i' = prop "category" i) by by apply Hkeep.
  assert (Hc' : Forall countable (Full.inventory st')).
  { rewrite Hinv'. apply Forall_insert; [done|]. split; [by eexists|].
    rewrite Hcat. apply Hi. }
  destruct (updateStats_countable _ Hinv) as (cs & Hcs & _ & Hstats).
  destruct (updateStats_countable _ Hc') as (cs' & Hcs' & _ & Hstats').
  rewrite Hinv', (categories_of_insert _ _ i i' Hidx Hcat), Hcs in Hcs'.
  injection Hcs' as <-.
  destruct (Hstats st (Scan.State (Full.inventory st) None None false)
              eq_refl eq_refl) as [Hs _].
  destruct (Hstats' st' (Scan.State (Full.inventory st') None None false)
              eq_refl eq_refl) as [Hs' _].
  assert (Hsum : sum_of (Full.inventory st')
                 = sum_of (Full.inventory st) - q + Z.max 0 (q + delta)).
  { rewrite Hinv', (sum_of_insert _ _ i i' Hidx).
    unfold quantity_of. by rewrite Hq, Hq'. }
  eexists _, _, _. split_and!; [exact Hrun | exact Hs | exact Hs' | ..];
    cbn [totalItems totalQuantity categories lowStock].
  - by rewrite Hinv', length_insert.
  - done.
  - exact Hsum.
  - rewrite Hsum. lia.
Qed.

(** X13.  On a collection whose quantities are integers that are not
    negative, whose categories are strings and whose total is below
    2^53 (so that the sums of the language are the sums of the
    integers), a scan outside the cooldown raises the total quantity on
    the dashboard by exactly one, and the number of items by one if no
    item has the barcode as its sku and not at all otherwise. *)
Theorem scan_adds_one_to_total (barcode : string) (now : Z) (rnd : string)
    (st : Scan.state)
    (Hcool : Scan.scanCooldown st = false)
    (Hinv : Forall countable (Scan.inventory st))
    (Hnonneg : all_nonneg (Scan.inventory st))
    (Hbound : sum_of (Scan.inventory st) < 2 ^ 53) :
  ∃ st' s s',
    Scan.onBarcodeDetected barcode now rnd st = Ok st' ∧
    Scan.updateStats st = Ok s ∧ Scan.updateStats st' = Ok s' ∧
    totalQuantity s' = totalQuantity s + 1 ∧
    (none_has "sku" barcode (Scan.inventory st) →
     totalItems s' = S (totalItems s)) ∧
    (¬ none_has "sku" barcode (Scan.inventory st) →
     totalItems s' = totalItems s ∧ categories s' = categories s).
Proof.
  destruct (updateStats_countable _ Hinv) as (cs & Hcs & _ & Hstats).
  destruct (Hstats (Full.State (Scan.inventory st) None) st eq_refl eq_refl)
    as [_ Hs].
  unfold Scan.onBarcodeDetected. rewrite Hcool.
  destruct (find_first (prop_is "sku" barcode) (Scan.inventory st))
    as [[index i]|] eqn:Hfind.
  - apply find_first_Some in Hfind as Hfw.
    assert (Hidx : Scan.inventory st !! index = Some i) by apply Hfw.
    assert (Hi : countable i).
    { eapply Forall_forall; [exact Hinv|]. by eapply list_elem_of_lookup_2. }
    pose proof (quantity_within_sum _ _ _ Hnonneg Hidx) as Hrange.
    rewrite (countable_quantity i Hi), bind_Ok.
    rewrite Number_add_exact by (unfold within_2_53; lia).
    set (i' := <["quantity" := VNum (quantity_of i + 1)]> i).
    assert (Hq' : prop "quantity" i' = Some (VNum (quantity_of i + 1))).
    { unfold prop, i'. by rewrite lookup_insert_eq. }
    assert (Hcat : prop "category" i' = prop "category" i).
    { unfold prop, i'. by rewrite lookup_insert_ne. }
    assert (Hc' : Forall countable (<[index := i']> (Scan.inventory st))).
    { apply Forall_insert; [done|]. split; [by eexists|].
      rewrite Hcat. apply Hi. }
    destruct (updateStats_countable _ Hc') as (cs' & Hcs' & _ & Hstats').
    rewrite (categories_of_insert _ _ i i' Hidx Hcat), Hcs in Hcs'.
    simplify_eq.
    eexists _, _, _. split; [reflexivity|]. split; [exact Hs|].
    split; [apply (Hstats' (Full.State (<[index := i']> (Scan.inventory st)) None));
            reflexivity|].
    cbn [totalItems totalQuantity categories lowStock]. split_and!.
    + rewrite (sum_of_insert _ _ i i' Hidx).
      assert (Hqi' : quantity_of i' = quantity_of i + 1)
        by (unfold quantity_of at 1; by rewrite Hq').
      rewrite Hqi'. lia.
    + intros Hnone%find_first_None. by rewrite Hnone in Hfind.
    + intros _. by rewrite length_insert.
  - rewrite bind_Ok.
    assert (Hc' : Forall countable
                    (Scan.autoProduct barcode now rnd :: Scan.inventory st)).
    { apply Forall_cons. split; [|done]. split; by eexists. }
    destruct (updateStats_countable _ Hc') as (cs' & Hcs' & _ & Hstats').
    eexists _, _, _. split; [reflexivity|]. split; [exact Hs|].
    split; [apply (Hstats' (Full.State (Scan.autoProduct barcode now rnd
                                         :: Scan.inventory st) None));
            reflexivity|].
    cbn [totalItems totalQuantity categories lowStock]. split_and!.
    + cbn [sum_of foldr]. fold (sum_of (Scan.inventory st)).
      change (quantity_of (Scan.autoProduct barcode now rnd)) with 1. lia.
    + done.
    + intros Hnot. destruct Hnot. by apply find_first_None.
Qed.

End Dashboard.

(** ** The theme *)

Section Theme.

(** X14.  In the CRUD variant a click on the theme button flips between
    dark and not dark and stores the choice, and [initTheme] on a page
    whose document is not dark by itself brings the stored choice back,
    whatever the system preference; with nothing stored the page follows
    the system preference.  In the scan-only variant the click flips the
    theme and leaves the storage as it is. *)
Theorem theme_survives_reload (prefersDark : bool) (t : theme_state)
    (fresh : option string) (Hfresh : is_dark fresh = false) :
  is_dark (data_theme (Full.toggleTheme t)) = negb (is_dark (data_theme t)) ∧
  is_dark (data_theme
             (Full.initTheme prefersDark
                (ThemeState fresh (stockflow_theme (Full.toggleTheme t)))))
  = is_dark (data_theme (Full.toggleTheme t)) ∧
  is_dark (data_theme (Full.initTheme prefersDark (ThemeState fresh None)))
  = prefersDark ∧
  is_dark (data_theme (Scan.toggleTheme t)) = negb (is_dark (data_theme t)) ∧
  stockflow_theme (Scan.toggleTheme t) = stockflow_theme t.
Proof.
  unfold Full.toggleTheme, Scan.toggleTheme, Full.initTheme.
  split_and!.
  - by destruct (is_dark (data_theme t)).
  - destruct (is_dark (data_theme t)); cbn; [exact Hfresh | done].
  - destruct prefersDark; cbn; [done | exact Hfresh].
  - by destruct (is_dark (data_theme t)).
  - done.
Qed.

End Theme.

(** ** The delete dialog of the CRUD variant *)

Section Dialog.



End Dialog.

(** ** Edits in sequence *)

Section Edits.



End Edits.

(** ** The two filters *)

Section Filters.

Lemma lower_unit_idemp (c : ascii) : lower_unit (lower_unit c) = lower_unit c.
Proof. by destruct c as [[] [] [] [] [] [] [] []]; vm_compute. Qed.

Lemma toLowerCase_idemp (s : string) :
  toLowerCase (toLowerCase s) = toLowerCase s.
Proof.
  induction s as [|c s IH]; [done|].
  cbn [toLowerCase]. by rewrite lower_unit_idemp, IH.
Qed.

Lemma toLowerCase_append (a b : string) :
  toLowerCase (a +:+ b) = toLowerCase a +:+ toLowerCase b.
Proof.
  induction a as [|c a IH]; [done|].
  cbn [toLowerCase String.append]. by rewrite IH.
Qed.

Lemma includes_lower (q s : string) :
  includes q s = true → includes (toLowerCase q) (toLowerCase s) = true.
Proof.
  rewrite !includes_occurs. intros (pre & post & ->).
  exists (toLowerCase pre), (toLowerCase post).
  by rewrite !toLowerCase_append.
Qed.

Lemma filter_sublist_impl {A} (g h : A → bool) (l : list A) :
  (∀ x, x ∈ l → g x = true → h x = true) →
  List.filter g l `sublist_of` List.filter h l.
Proof.
  induction l as [|x l IH]; intros Himp; simpl; [done|].
  assert (Hl : List.filter g l `sublist_of` List.filter h l).
  { apply IH. intros y Hy. apply Himp. by right. }
  destruct (g x) eqn:Hg.
  - rewrite (Himp x) by (done || left). by apply sublist_skip.
  - destruct (h x); [by apply sublist_cons | done].
Qed.

Lemma filter_ext_in {A} (g h : A → bool) (l : list A) :
  (∀ x, x ∈ l → g x = h x) → List.filter g l = List.filter h l.
Proof.
  induction l as [|x l IH]; intros Hext; simpl; [done|].
  rewrite (Hext x) by left. rewrite IH; [done|].
  intros y Hy. apply Hext. by right.
Qed.

(** X17.  On a collection whose names and skus are strings both filters
    return, and every item that the scan-only filter shows the CRUD
    filter shows too, in the same order; the two results are equal when
    no sku has a capital letter. *)
Theorem scan_filter_within_full (input cat : string)
    (fst : Full.state) (sst : Scan.state)
    (Hsame : Full.inventory fst = Scan.inventory sst)
    (Hinv : Forall searchable (Full.inventory fst)) :
  ∃ shown_scan shown_full,
    Scan.filtered input cat sst = Ok shown_scan ∧
    Full.filteredItems input cat fst = Ok shown_full ∧
    shown_scan `sublist_of` shown_full ∧
    shown_full `sublist_of` Full.inventory fst ∧
    (Forall (fun i => ∀ sku, prop "sku" i = Some (VStr sku) →
                             toLowerCase sku = sku) (Full.inventory fst) →
     shown_scan = shown_full).
Proof.
  set (q := toLowerCase input).
  set (catok := fun i : item =>
                  String.eqb cat "all" || prop_is "category" cat i).
  set (name_of := fun i : item =>
                    match prop "name" i with Some (VStr n) => n | _ => EmptyString end).
  set (sku_of := fun i : item =>
                   match prop "sku" i with Some (VStr s) => s | _ => EmptyString end).
  set (gs := fun i => (includes q (toLowerCase (name_of i))
                       || includes q (sku_of i)) && catok i).
  set (gf := fun i => (includes q (toLowerCase (name_of i))
                       || includes q (toLowerCase (sku_of i))) && catok i).
  assert (Hs : Scan.filtered input cat sst = Ok (List.filter gs (Full.inventory fst))).
  { unfold Scan.filtered. rewrite <- Hsame. apply filter_o_pure.
    eapply Forall_impl; [exact Hinv|]. intros i (name & sku & Hn & Hk).
    unfold gs, name_of, sku_of, Scan.sku_includes. fold q. rewrite Hn, Hk.
    by destruct (includes q (toLowerCase name)). }
  assert (Hf : Full.filteredItems input cat fst
               = Ok (List.filter gf (Full.inventory fst))).
  { unfold Full.filteredItems. apply filter_o_pure.
    eapply Forall_impl; [exact Hinv|]. intros i (name & sku & Hn & Hk).
    unfold gf, name_of, sku_of, Full.matchesSearch. fold q. rewrite Hn, Hk.
    by destruct (includes q (toLowerCase name)). }
  eexists _, _. split_and!; [exact Hs | exact Hf | ..].
  - apply filter_sublist_impl. intros i _. unfold gs, gf.
    rewrite !andb_true_iff, !orb_true_iff. intros [[Hn|Hk] Hc]; [tauto|].
    split; [|done]. right. apply includes_lower in Hk.
    unfold q in *. by rewrite toLowerCase_idemp in Hk.
  - clear. induction (Full.inventory fst) as [|x l IH]; simpl; [done|].
    destruct (gf x); [by apply sublist_skip | by apply sublist_cons].
  - intros Hlow. apply filter_ext_in. intros i Hi.
    eapply Forall_forall in Hlow; [|exact Hi].
    eapply Forall_forall in Hinv; [|exact Hi].
    destruct Hinv as (name & sku & Hn & Hk).
    unfold gs, gf, sku_of. rewrite Hk. by rewrite (Hlow sku Hk).
Qed.

End Filters.

(** ** The simulated scans *)

Section Simulation.

Lemma simulatedBarcode_inj (now now' : Z) :
  Scan.simulatedBarcode now = Scan.simulatedBarcode now' → now = now'.
Proof.
  unfold Scan.simulatedBarcode. intros H. apply show_Z_inj.
  cbn in H. by simplify_eq.
Qed.

Lemma scan_new (barcode : string) (now : Z) (rnd : string) (st : Scan.state) :
  Scan.scanCooldown st = false →
  none_has "sku" barcode (Scan.inventory st) →
  Scan.onBarcodeDetected barcode now rnd st
  = Ok (Scan.saveInventory
          (Scan.State (Scan.autoProduct barcode now rnd :: Scan.inventory st)
                      (Scan.storage st) (Scan.deletingItemId st) true)).
Proof.
  intros Hcool Hnew%find_first_None. unfold Scan.onBarcodeDetected.
  by rewrite Hcool, Hnew, bind_Ok.
Qed.

(** X18.  Two simulated scans of [openAddModal] whose timers fire at
    different clock readings, the second after the cooldown of the
    first, carry different barcodes; if no item has either barcode as
    its sku, each adds its own item with quantity 1 at the front. *)
Theorem simulated_scans_add (now1 now2 id1 id2 : Z) (rnd1 rnd2 : string)
    (st : Scan.state)
    (Hcool : Scan.scanCooldown st = false)
    (Hnew1 : none_has "sku" (Scan.simulatedBarcode now1) (Scan.inventory st))
    (Hnew2 : none_has "sku" (Scan.simulatedBarcode now2) (Scan.inventory st))
    (Hne : now1 ≠ now2) :
  Scan.simulatedBarcode now1 ≠ Scan.simulatedBarcode now2 ∧
  ∃ st',
    Scan.run_all [Scan.Detect (Scan.simulatedBarcode now1) id1 rnd1;
                  Scan.CooldownElapsed;
                  Scan.Detect (Scan.simulatedBarcode now2) id2 rnd2] st
    = Ok st' ∧
    Scan.inventory st'
    = Scan.autoProduct (Scan.simulatedBarcode now2) id2 rnd2
      :: Scan.autoProduct (Scan.simulatedBarcode now1) id1 rnd1
      :: Scan.inventory st.
Proof.
  assert (Hdiff : Scan.simulatedBarcode now1 ≠ Scan.simulatedBarcode now2).
  { intros H. by apply simulatedBarcode_inj in H. }
  split; [exact Hdiff|].
  cbn [Scan.run_all Scan.run].
  rewrite (scan_new _ id1 rnd1 st Hcool Hnew1), !bind_Ok.
  rewrite scan_new, !bind_Ok.
  - by eexists.
  - done.
  - apply Forall_cons. split; [|exact Hnew2].
    unfold prop_is.
    assert (Hsku : prop "sku" (Scan.autoProduct (Scan.simulatedBarcode now1)
                                 id1 rnd1)
                   = Some (VStr (Scan.simulatedBarcode now1))) by done.
    rewrite Hsku. by apply String.eqb_neq.
Qed.

End Simulation.

(** ** The further properties at the sample data *)

Lemma deleteItem_removes_all_witness :
  Full.deleteItem "item_0_none" two_items = two_items ∧
  (length (Full.inventory
             (Full.deleteItem "item_1700000000500_k2j9x7c1q" two_items))
   < length (Full.inventory two_items))%nat.
Proof.
  destruct (deleteItem_removes_all "item_0_none" two_items)
    as (_ & _ & _ & Habsent & _).
  destruct (deleteItem_removes_all "item_1700000000500_k2j9x7c1q" two_items)
    as (_ & _ & _ & _ & Hshorter).
  split.
  - apply Habsent. repeat constructor.
  - apply Hshorter. intros Hnone. apply Forall_cons in Hnone as [Hnone _].
    vm_compute in Hnone. discriminate.
Defined.

Lemma add_then_delete_restores_witness :
  Full.inventory
    (Full.deleteItem (Full.generateId 1700000000500 "0.k2j9x7c1q0z") two_items)
  = Full.inventory one_item.
Proof.
  apply (add_then_delete_restores widget 1700000000500 "0.k2j9x7c1q0z"
           "T1" "T1" one_item).
  repeat constructor.
Defined.


Lemma adjustments_compose_witness :
  ∃ st1 st2 i2,
    Full.updateQuantity "item_1700000000500_k2j9x7c1q" 1 "T2" two_items = Ok st1 ∧
    Full.updateQuantity "item_1700000000500_k2j9x7c1q" (-1) "T3" st1 = Ok st2 ∧
    Full.inventory st2 = <[0%nat := i2]> (Full.inventory two_items) ∧
    prop "quantity" i2 = Some (VNum 2).
Proof.
  destruct (adjustments_compose "item_1700000000500_k2j9x7c1q" 1 (-1) "T2" "T3"
              two_items scan_two_items 0%nat
              (<["updatedAt" := VStr "T1"]>
                 (<["createdAt" := VStr "T1"]>
                    (<["id" := VStr "item_1700000000500_k2j9x7c1q"]> widget)))
              2) as [Hfull _].
  - reflexivity.
  - destruct Hfull as (st1 & st2 & i2 & H1 & H2 & Hinv & _ & _ & Hback & _).
    + split; [reflexivity|]. split; [reflexivity|]. intros j y _ Hj. lia.
    + exists st1, st2, i2. split; [exact H1|]. split; [exact H2|].
      split; [exact Hinv|]. apply Hback; [lia | reflexivity | reflexivity].
Defined.

Lemma filter_throws_without_name_witness :
  Full.filteredItems "w" "all" (Full.State [∅] None) = Throw TypeError ∧
  Scan.filtered "w" "all" (Scan.State [∅] None None false) = Throw TypeError.
Proof.
  destruct (filter_throws_without_name "w" "all" ∅ (Full.State [∅] None)
              (Scan.State [∅] None None false)) as [Hfull Hscan].
  - intros [name Hname]. vm_compute in Hname. discriminate.
  - split; [apply Hfull | apply Hscan]; left.
Defined.

Lemma empty_query_selects_category_witness :
  Full.filteredItems EmptyString "all" two_items = Ok (Full.inventory two_items) ∧
  Scan.filtered EmptyString "all" scan_two_items
    = Ok (Scan.inventory scan_two_items).
Proof.
  destruct (empty_query_selects_category "Tools" two_items scan_two_items)
    as [Hfull Hscan].
  split.
  - apply Hfull. repeat (constructor; [by eexists|]). constructor.
  - apply Hscan. repeat (constructor; [by eexists|]). constructor.
Defined.

Lemma scan_in_cooldown_ignored_witness :
  ∃ st1,
    Scan.onBarcodeDetected "SKU-1" 1700000000000 "0.4fzyo82mvyr" Scan.init
      = Ok st1 ∧
    Scan.onBarcodeDetected "SKU-2" 1700000000400 "0.9c3k1vq8d2" st1 = Ok st1.
Proof.
  eexists. split; [reflexivity|].
  eapply (scan_in_cooldown_ignored "SKU-1" "SKU-2" 1700000000000 1700000000400
            "0.4fzyo82mvyr" "0.9c3k1vq8d2" Scan.init).
  reflexivity.
Defined.

Lemma scans_count_witness :
  ∃ st',
    Scan.run_all
      (Scan.scan_times "SKU-1"
         [(1700000000000, "0.4fzyo82mvyr"); (1700000002000, "0.9c3k1vq8d2");
          (1700000004000, "0.7m2p0aa4xs")]) Scan.init = Ok st' ∧
    prop "quantity" <$> Scan.inventory st' = [Some (VNum 3)].
Proof.
  destruct (scans_count "SKU-1" 1700000000000 "0.4fzyo82mvyr"
              [(1700000002000, "0.9c3k1vq8d2"); (1700000004000, "0.7m2p0aa4xs")]
              Scan.init) as (st' & Hrun & Hinv & _).
  - reflexivity.
  - constructor.
  - exists st'. split; [exact Hrun|]. rewrite Hinv. reflexivity.
Defined.


Lemma updateStats_bounds_witness :
  ∃ s, Full.updateStats two_items = Ok s ∧
    Scan.updateStats scan_two_items = Ok s ∧
    LOW_STOCK_THRESHOLD * (Z.of_nat (totalItems s) - Z.of_nat (lowStock s))
    ≤ totalQuantity s.
Proof.
  destruct (updateStats_bounds two_items scan_two_items)
    as (s & Hf & Hs & _ & _ & _ & _ & Hbound).
  - reflexivity.
  - repeat (constructor; [split; by eexists|]). constructor.
  - exists s. split; [exact Hf|]. split; [exact Hs|].
    apply Hbound. repeat constructor.
Defined.

Lemma updateQuantity_moves_total_witness :
  ∃ st' s s',
    Full.updateQuantity "item_1700000000500_k2j9x7c1q" (-5) "T2" two_items
      = Ok st' ∧
    Full.updateStats two_items = Ok s ∧ Full.updateStats st' = Ok s' ∧
    totalQuantity s' = totalQuantity s - 2 + Z.max 0 (2 + -5).
Proof.
  destruct (updateQuantity_moves_total "item_1700000000500_k2j9x7c1q" (-5) "T2"
              two_items 0%nat
              (<["updatedAt" := VStr "T1"]>
                 (<["createdAt" := VStr "T1"]>
                    (<["id" := VStr "item_1700000000500_k2j9x7c1q"]> widget)))
              2) as (st' & s & s' & Hrun & Hs & Hs' & _ & _ & Htotal & _).
  - repeat (constructor; [split; by eexists|]). constructor.
  - repeat constructor.
  - unfold within_2_53. lia.
  - vm_compute. discriminate.
  - split; [reflexivity|]. split; [reflexivity|]. intros j y _ Hj. lia.
  - reflexivity.
  - exists st', s, s'. split; [exact Hrun|]. split; [exact Hs|].
    split; [exact Hs' | exact Htotal].
Defined.

Lemma scan_adds_one_to_total_witness :
  ∃ st' s s',
    Scan.onBarcodeDetected "SKU-1" 1700000002000 "0.9c3k1vq8d2" one_scan
      = Ok st' ∧
    Scan.updateStats one_scan = Ok s ∧ Scan.updateStats st' = Ok s' ∧
    totalQuantity s' = totalQuantity s + 1.
Proof.
  destruct (scan_adds_one_to_total "SKU-1" 1700000002000 "0.9c3k1vq8d2" one_scan)
    as (st' & s & s' & Hrun & Hs & Hs' & Htotal & _).
  - reflexivity.
  - repeat (constructor; [split; by eexists|]). constructor.
  - repeat constructor.
  - vm_compute. reflexivity.
  - exists st', s, s'. split; [exact Hrun|]. split; [exact Hs|].
    split; [exact Hs' | exact Htotal].
Defined.

Lemma theme_survives_reload_witness :
  is_dark (data_theme
             (Full.initTheme false
                (ThemeState None
                   (stockflow_theme (Full.toggleTheme (ThemeState None None))))))
  = true.
Proof.
  destruct (theme_survives_reload false (ThemeState None None) None)
    as (_ & Hreload & _).
  - reflexivity.
  - rewrite Hreload. reflexivity.
Defined.



Lemma scan_filter_within_full_witness :
  ∃ shown_scan shown_full,
    Scan.filtered "g-7" "all" scan_two_items = Ok shown_scan ∧
    Full.filteredItems "g-7" "all" two_items = Ok shown_full ∧
    shown_scan `sublist_of` shown_full.
Proof.
  destruct (scan_filter_within_full "g-7" "all" two_items scan_two_items)
    as (shown_scan & shown_full & Hs & Hf & Hsub & _).
  - reflexivity.
  - repeat (constructor; [by eexists _, _|]). constructor.
  - exists shown_scan, shown_full. split; [exact Hs|]. split; [exact Hf|].
    exact Hsub.
Defined.

Lemma simulated_scans_add_witness :
  ∃ st',
    Scan.run_all
      [Scan.Detect (Scan.simulatedBarcode 1700000002000) 1700000002000
         "0.9c3k1vq8d2";
       Scan.CooldownElapsed;
       Scan.Detect (Scan.simulatedBarcode 1700000004000) 1700000004000
         "0.7m2p0aa4xs"] Scan.init = Ok st' ∧
    length (Scan.inventory st') = 2%nat.
Proof.
  destruct (simulated_scans_add 1700000002000 1700000004000 1700000002000
              1700000004000 "0.9c3k1vq8d2" "0.7m2p0aa4xs" Scan.init)
    as (_ & st' & Hrun & Hinv).
  - reflexivity.
  - constructor.
  - constructor.
  - lia.
  - exists st'. split; [exact Hrun|]. rewrite Hinv. reflexivity.
Defined.
